(** * Flood-routing mesh node over BLE advertisements

    A shallow embedding of [src/bluetooth_mesh_com.py] (class
    [BluetoothMeshComm]) and the properties of its packet codec, sequence
    counter, cipher transform and relay engine.

    Python values are modelled as follows: [int] is [Z]; [bytes] and
    [bytearray] are [list byte]; [str] is a list of code points; an
    exception is an [outcome] carrying the exception class; the instance
    attributes of [self] are a record threaded through a small
    state / trace / exception monad.  Calls that leave the program (the
    radio, [print], the application callback, the cipher library) are
    recorded as events in the trace. *)

From Stdlib Require Import String ZArith List Bool Lia.
From Stdlib.Strings Require Import Byte.
Import ListNotations.
Local Open Scope Z_scope.

(** ** Python primitives used by the source *)

Module Py.

Definition bytes := list byte.

(** Python [str]: a sequence of Unicode code points (0 .. 0x10FFFF). *)
Definition str := list Z.

Inductive exn :=
| ValueError
| IndexError
| StructError
| AttributeError
| UnicodeEncodeError.

Inductive outcome (A : Type) :=
| Return (a : A)
| Raise (e : exn).
Arguments Return {A} a.
Arguments Raise {A} e.

Definition obind {A B} (o : outcome A) (k : A -> outcome B) : outcome B :=
  match o with
  | Return a => k a
  | Raise e => Raise e
  end.

Notation "x <-? o ; k" := (obind o (fun x => k))
  (at level 61, o at next level, right associativity).

(** The value of a byte as a Python int, and back (for ints in 0..255). *)
Definition int_of_byte (b : byte) : Z := Z.of_N (Byte.to_N b).

Definition byte_of_int (z : Z) : byte :=
  match Byte.of_N (Z.to_N z) with
  | Some b => b
  | None => x00
  end.

(** [bytearray(n)]: n zero bytes. *)
Definition bytearray (n : nat) : bytes := repeat x00 n.

(** [b[i]] for a non-negative index. *)
Definition getitem (b : bytes) (i : nat) : outcome Z :=
  match nth_error b i with
  | Some x => Return (int_of_byte x)
  | None => Raise IndexError
  end.

(** [b[i:j]] for 0 <= i <= j; Python slices clamp at the end of [b]. *)
Definition slice (b : bytes) (i j : nat) : bytes := firstn (j - i) (skipn i b).

(** [b[i:]]. *)
Definition slice_from (b : bytes) (i : nat) : bytes := skipn i b.

(** [packet[i] = v] on a bytearray: the value must be in range(256). *)
Definition setitem (packet : bytes) (i : nat) (v : Z) : outcome bytes :=
  if (i <? length packet)%nat then
    if (0 <=? v) && (v <? 256)
    then Return (firstn i packet ++ byte_of_int v :: skipn (S i) packet)
    else Raise ValueError
  else Raise IndexError.

(** [packet[i:] = payload] on a bytearray: everything from index [i] on is
    replaced by [payload]; the bytearray is resized to fit. *)
Definition setslice_from (packet : bytes) (i : nat) (payload : bytes) : bytes :=
  firstn i packet ++ payload.

(** [struct.pack] of one field, big-endian: 'H' is an unsigned 16-bit and 'B'
    an unsigned 8-bit integer; an argument out of range raises
    [struct.error]. *)
Definition pack_H (v : Z) : outcome bytes :=
  if (0 <=? v) && (v <=? 65535)
  then Return [byte_of_int (Z.shiftr v 8); byte_of_int (Z.land v 255)]
  else Raise StructError.

Definition pack_B (v : Z) : outcome bytes :=
  if (0 <=? v) && (v <=? 255)
  then Return [byte_of_int v]
  else Raise StructError.

(** [struct.pack('>HHBH', a, b, c, d)]: no padding with '>', 7 bytes. *)
Definition pack_HHBH (a b c d : Z) : outcome bytes :=
  ba <-? pack_H a;
  bb <-? pack_H b;
  bc <-? pack_B c;
  bd <-? pack_H d;
  Return (ba ++ bb ++ bc ++ bd).

(** [struct.pack_into('>HHBH', buffer, offset, a, b, c, d)]. *)
Definition pack_into_HHBH (buffer : bytes) (offset : nat) (a b c d : Z)
  : outcome bytes :=
  if (offset + 7 <=? length buffer)%nat then
    data <-? pack_HHBH a b c d;
    Return (firstn offset buffer ++ data ++ skipn (offset + 7) buffer)
  else Raise StructError.

(** [struct.unpack('>H', data)[0]]: exactly two bytes are required. *)
Definition unpack_H (data : bytes) : outcome Z :=
  match data with
  | [hi; lo] => Return (Z.lor (Z.shiftl (int_of_byte hi) 8) (int_of_byte lo))
  | _ => Raise StructError
  end.

(** [bytes.rstrip(b'\x00')]: every trailing zero byte is removed. *)
Fixpoint rstrip_zero (b : bytes) : bytes :=
  match b with
  | [] => []
  | x :: t =>
      match rstrip_zero t with
      | [] => if Byte.eqb x x00 then [] else [x]
      | r => x :: r
      end
  end.

(** [str.encode('utf-8')] of one code point.  Surrogates (U+D800..U+DFFF)
    raise [UnicodeEncodeError]; values outside 0..0x10FFFF are not
    characters of a Python [str] and are refused in the same way. *)
Definition utf8_encode_char (c : Z) : outcome bytes :=
  if (c <? 0) || (0x10FFFF <? c) then Raise UnicodeEncodeError
  else if c <? 0x80 then Return [byte_of_int c]
  else if c <? 0x800 then
    Return [byte_of_int (Z.lor 0xC0 (Z.shiftr c 6));
            byte_of_int (Z.lor 0x80 (Z.land c 0x3F))]
  else if (0xD800 <=? c) && (c <=? 0xDFFF) then Raise UnicodeEncodeError
  else if c <? 0x10000 then
    Return [byte_of_int (Z.lor 0xE0 (Z.shiftr c 12));
            byte_of_int (Z.lor 0x80 (Z.land (Z.shiftr c 6) 0x3F));
            byte_of_int (Z.lor 0x80 (Z.land c 0x3F))]
  else
    Return [byte_of_int (Z.lor 0xF0 (Z.shiftr c 18));
            byte_of_int (Z.lor 0x80 (Z.land (Z.shiftr c 12) 0x3F));
            byte_of_int (Z.lor 0x80 (Z.land (Z.shiftr c 6) 0x3F));
            byte_of_int (Z.lor 0x80 (Z.land c 0x3F))].

Fixpoint utf8_encode (text : str) : outcome bytes :=
  match text with
  | [] => Return []
  | c :: rest =>
      bc <-? utf8_encode_char c;
      br <-? utf8_encode rest;
      Return (bc ++ br)
  end.

End Py.
Export Py.

(** ** The cipher library

    [cryptography]'s AES is not part of the repository: its block
    primitive is a parameter.  [key_ok k] says that
    [Cipher(algorithms.AES(k), modes.ECB(), default_backend())] is built
    without an error (the key has a size AES accepts); the block functions
    map one 16-byte block to one 16-byte block. *)

Module Crypto.

Class BlockCipher := {
  key_ok : bytes -> bool;
  encrypt_block : bytes -> bytes -> bytes;
  decrypt_block : bytes -> bytes -> bytes
}.

Class BlockCipherLaws (C : BlockCipher) : Prop := {
  encrypt_block_length : forall k b,
    key_ok k = true -> length b = 16%nat ->
    length (encrypt_block k b) = 16%nat;
  decrypt_block_length : forall k b,
    key_ok k = true -> length b = 16%nat ->
    length (decrypt_block k b) = 16%nat;
  decrypt_encrypt_block : forall k b,
    key_ok k = true -> length b = 16%nat ->
    decrypt_block k (encrypt_block k b) = b
}.

(** ECB: the block function applied to [n] consecutive 16-byte blocks. *)
Fixpoint ecb_blocks (f : bytes -> bytes) (n : nat) (data : bytes) : bytes :=
  match n with
  | O => []
  | S n' => f (firstn 16 data) ++ ecb_blocks f n' (skipn 16 data)
  end.

(** [ctx.update(data) + ctx.finalize()] on an ECB context: [update] returns
    the transformed whole blocks, [finalize] raises [ValueError] when the
    data was not a multiple of the block length. *)
Definition update_finalize (f : bytes -> bytes) (data : bytes) : outcome bytes :=
  if (length data mod 16 =? 0)%nat
  then Return (ecb_blocks f (length data / 16) data)
  else Raise ValueError.

(** [Cipher(algorithms.AES(key), modes.ECB(), default_backend())]. *)
Definition Cipher `{BlockCipher} (key : bytes) : outcome unit :=
  if key_ok key then Return tt else Raise ValueError.

(** A byte-wise shift cipher: an instance of the interface on which the
    model can be run. *)
Definition shift_byte (x k : byte) : byte :=
  byte_of_int ((int_of_byte x + int_of_byte k) mod 256).

Definition unshift_byte (x k : byte) : byte :=
  byte_of_int ((int_of_byte x - int_of_byte k) mod 256).

Fixpoint zip_with (f : byte -> byte -> byte) (b k : bytes) : bytes :=
  match b, k with
  | x :: b', y :: k' => f x y :: zip_with f b' k'
  | _, _ => []
  end.

Definition shift_cipher : BlockCipher := {|
  key_ok := fun k => (length k =? 16)%nat;
  encrypt_block := fun k b => zip_with shift_byte b k;
  decrypt_block := fun k b => zip_with unshift_byte b k
|}.

End Crypto.
Export Crypto.

(** ** The mesh node: [class BluetoothMeshComm] *)

Module Mesh.

(** Mesh configuration (module constants of the source). *)
Definition MAX_PAYLOAD_SIZE : Z := 23.
Definition TTL_DEFAULT : Z := 7.

(** Callback objects held in attributes of [self]. *)
Inductive callback :=
| ScanCallback
| AdvertiseCallback
| AppCallback (id : nat).

(** The attributes of [self] that the methods read or write.
    [message_callback = None] is Python's [None]; [scan_callback] and
    [advertise_callback] are not assigned by [__init__], so [None] there
    means that the attribute does not exist yet. *)
Record BluetoothMeshComm := mkNode {
  node_id : Z;
  network_key : bytes;
  running : bool;
  message_callback : option callback;
  sequence_number : Z;
  scan_callback : option callback;
  advertise_callback : option callback
}.

Definition __init__ (node_id : Z) (network_key : bytes) : BluetoothMeshComm :=
  {| node_id := node_id;
     network_key := network_key;
     running := false;
     message_callback := None;
     sequence_number := 0;
     scan_callback := None;
     advertise_callback := None |}.

Definition set_running (v : bool) (self : BluetoothMeshComm) :=
  mkNode (node_id self) (network_key self) v (message_callback self)
         (sequence_number self) (scan_callback self) (advertise_callback self).

Definition set_message_callback (v : option callback) (self : BluetoothMeshComm) :=
  mkNode (node_id self) (network_key self) (running self) v
         (sequence_number self) (scan_callback self) (advertise_callback self).

Definition set_sequence_number (v : Z) (self : BluetoothMeshComm) :=
  mkNode (node_id self) (network_key self) (running self) (message_callback self)
         v (scan_callback self) (advertise_callback self).

Definition set_scan_callback (v : callback) (self : BluetoothMeshComm) :=
  mkNode (node_id self) (network_key self) (running self) (message_callback self)
         (sequence_number self) (Some v) (advertise_callback self).

Definition set_advertise_callback (v : callback) (self : BluetoothMeshComm) :=
  mkNode (node_id self) (network_key self) (running self) (message_callback self)
         (sequence_number self) (scan_callback self) (Some v).

(** What the node does to the outside, in order.
    [CallMessageCallback source_id payload] is the call
    [self.message_callback(f"Node {source_id}: {message}")] with
    [message = payload.decode('utf-8', errors='ignore')]: with
    [errors='ignore'] the decoding is total, so the text is determined by
    the two recorded values.  [StartAdvertising (Some packet)] advertises
    [packet] as service data, [StartAdvertising None] is a presence
    beacon. *)
Inductive event :=
| Print (s : string)
| StartScan
| StopScan
| ThreadStart
| StartAdvertising (service_data : option bytes)
| StopAdvertising
| CipherEncrypt (data : bytes)
| CipherDecrypt (data : bytes)
| CallMessageCallback (source_id : Z) (payload : bytes).

(** A method body: from the attributes of [self] to a result or an
    exception, the attributes afterwards, and the events issued. *)
Definition M (A : Type) : Type :=
  BluetoothMeshComm -> outcome A * BluetoothMeshComm * list event.

Definition ret {A} (a : A) : M A := fun self => (Return a, self, []).

Definition raise {A} (e : exn) : M A := fun self => (Raise e, self, []).

Definition bind {A B} (m : M A) (k : A -> M B) : M B :=
  fun self =>
    match m self with
    | (Return a, self', t) =>
        let '(r, self'', t') := k a self' in (r, self'', t ++ t')
    | (Raise e, self', t) => (Raise e, self', t)
    end.

Definition lift {A} (o : outcome A) : M A := fun self => (o, self, []).

Definition gets {A} (f : BluetoothMeshComm -> A) : M A :=
  fun self => (Return (f self), self, []).

(** Reading an attribute that may not have been assigned. *)
Definition getattr {A} (f : BluetoothMeshComm -> option A) : M A :=
  fun self =>
    match f self with
    | Some a => (Return a, self, [])
    | None => (Raise AttributeError, self, [])
    end.

Definition modify (f : BluetoothMeshComm -> BluetoothMeshComm) : M unit :=
  fun self => (Return tt, f self, []).

Definition emit (ev : event) : M unit := fun self => (Return tt, self, [ev]).

Notation "x <- m ;; k" := (bind m (fun x => k))
  (at level 61, m at next level, right associativity).
Notation "m ;; k" := (bind m (fun _ => k))
  (at level 61, right associativity).

Definition result {A} (r : outcome A * BluetoothMeshComm * list event) := fst (fst r).
Definition final {A} (r : outcome A * BluetoothMeshComm * list event) := snd (fst r).
Definition trace {A} (r : outcome A * BluetoothMeshComm * list event) := snd r.

(** A decoded frame: the local variables of [_process_mesh_message]. *)
Record mesh_packet := mkPacket {
  opcode : Z;
  source_id : Z;
  destination_id : Z;
  ttl : Z;
  seq_num : Z;
  encrypted_payload : bytes
}.

Section Methods.
Context `{C : BlockCipher}.

(** [_encrypt_payload], as a function of [self.network_key]. *)
Definition encrypt_payload (network_key payload : bytes) : outcome bytes :=
  _ <-? Cipher network_key;
  let padded_payload :=
    payload ++ repeat x00 (16 - length payload mod 16) in
  update_finalize (encrypt_block network_key) padded_payload.

(** [_decrypt_payload], as a function of [self.network_key]. *)
Definition decrypt_payload (network_key encrypted_payload : bytes) : outcome bytes :=
  _ <-? Cipher network_key;
  decrypted <-? update_finalize (decrypt_block network_key) encrypted_payload;
  Return (rstrip_zero decrypted).

Definition _encrypt_payload (payload : bytes) : M bytes :=
  key <- gets network_key ;;
  emit (CipherEncrypt payload) ;;
  lift (encrypt_payload key payload).

Definition _decrypt_payload (encrypted_payload : bytes) : M bytes :=
  key <- gets network_key ;;
  emit (CipherDecrypt encrypted_payload) ;;
  lift (decrypt_payload key encrypted_payload).

Definition _create_mesh_packet (destination_id opcode : Z) (payload : bytes)
  (ttl : Z) : M bytes :=
  let packet := bytearray (8 + length payload) in
  packet <- lift (setitem packet 0 opcode) ;;
  node_id <- gets node_id ;;
  sequence_number <- gets sequence_number ;;
  packet <- lift (pack_into_HHBH packet 1 node_id destination_id ttl
                                 sequence_number) ;;
  let packet := setslice_from packet 7 payload in
  modify (set_sequence_number ((sequence_number + 1) mod 0xFFFF)) ;;
  ret packet.

Definition _advertise_packet (packet : bytes) : M unit :=
  _ <- getattr advertise_callback ;;
  emit (StartAdvertising (Some packet)) ;;
  _ <- getattr advertise_callback ;;
  emit StopAdvertising.

Definition _start_scanning : M unit :=
  modify (set_scan_callback ScanCallback) ;;
  emit StartScan.

(** The body of the presence thread; [cycles] bounds the number of
    iterations of its [while self.running] loop that are followed. *)
Fixpoint presence_loop (cycles : nat) : M unit :=
  match cycles with
  | O => ret tt
  | S n =>
      r <- gets running ;;
      if r then
        _ <- getattr advertise_callback ;;
        emit (StartAdvertising None) ;;
        _ <- getattr advertise_callback ;;
        emit StopAdvertising ;;
        presence_loop n
      else ret tt
  end.

Definition _advertise_presence (cycles : nat) : M unit :=
  modify (set_advertise_callback AdvertiseCallback) ;;
  presence_loop cycles.

(** [start]; [isEnabled] is the answer of [self.adapter.isEnabled()].
    The thread it starts runs [_advertise_presence]. *)
Definition start (isEnabled : bool) : M unit :=
  if negb isEnabled then emit (Print "Bluetooth not enabled")
  else
    modify (set_running true) ;;
    _start_scanning ;;
    emit ThreadStart.

Definition stop : M unit :=
  modify (set_running false) ;;
  _ <- getattr scan_callback ;;
  emit StopScan ;;
  _ <- getattr advertise_callback ;;
  emit StopAdvertising.

Definition send_message (destination_id : Z) (text : str) : M unit :=
  if Z.of_nat (length text) >? MAX_PAYLOAD_SIZE then
    emit (Print "Message too long")
  else
    payload <- lift (utf8_encode text) ;;
    encrypted_payload <- _encrypt_payload payload ;;
    packet <- _create_mesh_packet destination_id 0x01 encrypted_payload
                                  TTL_DEFAULT ;;
    _advertise_packet packet.

(** The header parsing of [_process_mesh_message]; [None] is its first
    [return] (fewer than 8 bytes). *)
Definition parse_mesh_packet (scan_record : bytes) : outcome (option mesh_packet) :=
  if (length scan_record <? 8)%nat then Return None
  else
    opcode <-? getitem scan_record 0;
    source_id <-? unpack_H (slice scan_record 1 3);
    destination_id <-? unpack_H (slice scan_record 3 5);
    ttl <-? getitem scan_record 5;
    seq_num <-? unpack_H (slice scan_record 6 8);
    let encrypted_payload := slice_from scan_record 8 in
    Return (Some (mkPacket opcode source_id destination_id ttl seq_num
                           encrypted_payload)).

Definition _process_mesh_message (scan_record : bytes) : M unit :=
  parsed <- lift (parse_mesh_packet scan_record) ;;
  match parsed with
  | None => ret tt
  | Some p =>
      if ttl p <=? 0 then ret tt
      else
        payload <- _decrypt_payload (encrypted_payload p) ;;
        (if opcode p =? 0x01 then
           cb <- gets message_callback ;;
           match cb with
           | Some _ => emit (CallMessageCallback (source_id p) payload)
           | None => ret tt
           end
         else ret tt) ;;
        r <- gets running ;;
        if (ttl p >? 1) && r then
          packet <- _create_mesh_packet (destination_id p) (opcode p) payload
                                        (ttl p - 1) ;;
          _advertise_packet packet
        else ret tt
  end.

End Methods.

End Mesh.
Export Mesh.

(** ** The application: [class MeshCommApp]

    Of the Kivy application only what reaches the mesh node is modelled:
    the node it creates, the text of its input field, and the handler of
    the Send button. *)

Module MeshCommApp.

(** The characters that [str.strip()] removes: those for which
    [str.isspace] holds. *)
Definition is_whitespace (c : Z) : bool :=
  ((0x09 <=? c) && (c <=? 0x0D)) || ((0x1C <=? c) && (c <=? 0x20)) ||
  (c =? 0x85) || (c =? 0xA0) || (c =? 0x1680) ||
  ((0x2000 <=? c) && (c <=? 0x200A)) ||
  (c =? 0x2028) || (c =? 0x2029) || (c =? 0x202F) || (c =? 0x205F) ||
  (c =? 0x3000).

Fixpoint lstrip (text : str) : str :=
  match text with
  | [] => []
  | c :: rest => if is_whitespace c then lstrip rest else text
  end.

(** [text.strip()]. *)
Definition strip (text : str) : str := rev (lstrip (rev (lstrip text))).

Record app := mkApp {
  mesh : BluetoothMeshComm;
  text_input_text : str
}.

(** [MeshCommApp.__init__]: node 1 with the key b'0123456789abcdef' and
    [add_message] registered as message callback. *)
Definition __init__ : app :=
  {| mesh := set_message_callback (Some (AppCallback 0))
               (Mesh.__init__ 0x0001
                  [x30; x31; x32; x33; x34; x35; x36; x37;
                   x38; x39; x61; x62; x63; x64; x65; x66]);
     text_input_text := [] |}.

(** [MeshCommApp.send_message] (the Send button): the stripped text, when
    it is not empty, goes to the broadcast address, and the input field is
    emptied once [mesh.send_message] has returned. *)
Definition send_message `{C : BlockCipher} (self : app)
  : outcome unit * app * list event :=
  let text := strip (text_input_text self) in
  match text with
  | [] => (Return tt, self, [])
  | _ :: _ =>
      match Mesh.send_message 0xFFFF text (mesh self) with
      | (Return _, mesh', t) =>
          (Return tt, {| mesh := mesh'; text_input_text := [] |}, t)
      | (Raise e, mesh', t) =>
          (Raise e,
           {| mesh := mesh'; text_input_text := text_input_text self |}, t)
      end
  end.

End MeshCommApp.

(** ** Auxiliary definitions for the statements *)

(** The seven header bytes that [_create_mesh_packet] leaves in front of the
    payload: opcode, source (2), destination (2), ttl, and the high byte of
    the sequence number. *)
Definition frame_prefix (opcode node_id destination_id ttl sequence_number : Z)
  : bytes :=
  [byte_of_int opcode;
   byte_of_int (Z.shiftr node_id 8); byte_of_int (Z.land node_id 255);
   byte_of_int (Z.shiftr destination_id 8);
   byte_of_int (Z.land destination_id 255);
   byte_of_int ttl;
   byte_of_int (Z.shiftr sequence_number 8)].

(** The attributes that [struct.pack_into] can pack: a 16-bit node id and
    a 16-bit sequence counter. *)
Definition packable (self : BluetoothMeshComm) : Prop :=
  0 <= node_id self <= 65535 /\ 0 <= sequence_number self <= 65535.

(** [n] packets built one after the other. *)
Fixpoint build_packets (n : nat) (destination_id opcode : Z) (payload : bytes)
  (ttl : Z) : M unit :=
  match n with
  | O => ret tt
  | S k =>
      _create_mesh_packet destination_id opcode payload ttl ;;
      build_packets k destination_id opcode payload ttl
  end.

(** The events of the local delivery step of [_process_mesh_message]:
    the callback is called for opcode 0x01 when one is registered. *)
Definition delivery (self : BluetoothMeshComm) (p : mesh_packet)
  (payload : bytes) : list event :=
  if opcode p =? 0x01 then
    match message_callback self with
    | Some _ => [CallMessageCallback (source_id p) payload]
    | None => []
    end
  else [].

(** An advertisement carrying service data (a frame handed to the radio). *)
Definition is_transmission (ev : event) : bool :=
  match ev with
  | StartAdvertising (Some _) => true
  | _ => false
  end.

(** A key and started nodes on which the model is run: the key is sixteen
    bytes 0x30; [started n s h] is node [n] after a successful [start],
    with its presence thread begun, counter [s] and application callback
    [h]. *)
Definition example_key : bytes := repeat x30 16.

Definition started (n s : Z) (h : option callback) : BluetoothMeshComm :=
  mkNode n example_key true h s (Some ScanCallback) (Some AdvertiseCallback).

(** A call of the application callback. *)
Definition is_delivery (ev : event) : bool :=
  match ev with
  | CallMessageCallback _ _ => true
  | _ => false
  end.

(** The events of [cycles] presence beacons. *)
Definition presence_beacons (cycles : nat) : list event :=
  concat (repeat [StartAdvertising None; StopAdvertising] cycles).

(** What can be done to a node from outside: the public methods, the
    assignment of [message_callback], the arrival of a scan record and the
    body of the presence thread. *)
Inductive action :=
| DoStart (isEnabled : bool)
| DoStop
| DoSend (destination_id : Z) (text : str)
| DoReceive (scan_record : bytes)
| DoPresence (cycles : nat)
| DoSetCallback (h : option callback).

Definition perform `{C : BlockCipher} (a : action) : M unit :=
  match a with
  | DoStart isEnabled => start isEnabled
  | DoStop => stop
  | DoSend destination_id text => send_message destination_id text
  | DoReceive scan_record => _process_mesh_message scan_record
  | DoPresence cycles => _advertise_presence cycles
  | DoSetCallback h => modify (set_message_callback h)
  end.

(** A sequence of actions on one node; an exception ends the action that
    raised it, the node keeps the attributes it had at that point. *)
Fixpoint run `{C : BlockCipher} (actions : list action)
  (self : BluetoothMeshComm) : BluetoothMeshComm :=
  match actions with
  | [] => self
  | a :: rest => run rest (final (perform a self))
  end.

(** The ways [_process_mesh_message] can end, read off its control flow:
    each constructor is one path through the method, with the result, the
    node afterwards and the events. *)
Inductive receive_outcome `{C : BlockCipher} (self : BluetoothMeshComm)
  (scan_record : bytes)
  : outcome unit * BluetoothMeshComm * list event -> Prop :=
| Receive_short :
    (length scan_record < 8)%nat ->
    receive_outcome self scan_record (Return tt, self, [])
| Receive_exhausted p :
    parse_mesh_packet scan_record = Return (Some p) -> ttl p = 0 ->
    receive_outcome self scan_record (Return tt, self, [])
| Receive_refused p :
    parse_mesh_packet scan_record = Return (Some p) -> 0 < ttl p ->
    decrypt_payload (network_key self) (encrypted_payload p) = Raise ValueError ->
    receive_outcome self scan_record
      (Raise ValueError, self, [CipherDecrypt (encrypted_payload p)])
| Receive_delivered p payload :
    parse_mesh_packet scan_record = Return (Some p) -> 0 < ttl p ->
    decrypt_payload (network_key self) (encrypted_payload p) = Return payload ->
    ttl p = 1 \/ running self = false ->
    receive_outcome self scan_record
      (Return tt, self,
       CipherDecrypt (encrypted_payload p) :: delivery self p payload)
| Receive_unpackable p payload :
    parse_mesh_packet scan_record = Return (Some p) -> 1 < ttl p ->
    decrypt_payload (network_key self) (encrypted_payload p) = Return payload ->
    running self = true -> ~ packable self ->
    receive_outcome self scan_record
      (Raise StructError, self,
       CipherDecrypt (encrypted_payload p) :: delivery self p payload)
| Receive_no_advertise_callback p payload :
    parse_mesh_packet scan_record = Return (Some p) -> 1 < ttl p ->
    decrypt_payload (network_key self) (encrypted_payload p) = Return payload ->
    running self = true -> packable self -> advertise_callback self = None ->
    receive_outcome self scan_record
      (Raise AttributeError,
       set_sequence_number ((sequence_number self + 1) mod 0xFFFF) self,
       CipherDecrypt (encrypted_payload p) :: delivery self p payload)
| Receive_relayed p payload cb :
    parse_mesh_packet scan_record = Return (Some p) -> 1 < ttl p ->
    decrypt_payload (network_key self) (encrypted_payload p) = Return payload ->
    running self = true -> packable self -> advertise_callback self = Some cb ->
    receive_outcome self scan_record
      (Return tt,
       set_sequence_number ((sequence_number self + 1) mod 0xFFFF) self,
       CipherDecrypt (encrypted_payload p) :: delivery self p payload ++
       [StartAdvertising
          (Some (frame_prefix (opcode p) (node_id self) (destination_id p)
                   (ttl p - 1) (sequence_number self) ++ payload));
        StopAdvertising]).

(** The code points that [str.encode('utf-8')] can encode: Unicode scalar
    values, i.e. 0..0x10FFFF without the surrogates. *)
Definition encodable (c : Z) : Prop :=
  0 <= c <= 0x10FFFF /\ ~ 0xD800 <= c <= 0xDFFF.




(** What holds of a node created by [__init__ n k] whatever is done to it
    afterwards. *)
Definition node_invariant (n : Z) (k : bytes) (self : BluetoothMeshComm)
  : Prop :=
  node_id self = n /\ network_key self = k /\
  0 <= sequence_number self < 65535 /\
  (running self = true -> scan_callback self = Some ScanCallback).

(** * Properties *)

(** ** Bytes and integers *)

Lemma int_of_byte_range (b : byte) : 0 <= int_of_byte b < 256.
Proof.
  unfold int_of_byte. pose proof (Byte.to_N_bounded b). lia.
Qed.

Lemma byte_of_int_of_byte (b : byte) : byte_of_int (int_of_byte b) = b.
Proof.
  unfold byte_of_int, int_of_byte.
  now rewrite N2Z.id, Byte.of_to_N.
Qed.

Lemma int_of_byte_of_int (z : Z) :
  0 <= z < 256 -> int_of_byte (byte_of_int z) = z.
Proof.
  intros Hz. unfold byte_of_int, int_of_byte.
  destruct (Byte.of_N (Z.to_N z)) as [b|] eqn:E.
  - apply Byte.to_of_N in E. rewrite E. lia.
  - apply Byte.of_N_None_iff in E. lia.
Qed.

Lemma byte_eqb_neq (a b : byte) : a <> b -> Byte.eqb a b = false.
Proof.
  intros Hab. destruct (Byte.eqb a b) eqn:E; [|reflexivity].
  apply Byte.byte_dec_bl in E. contradiction.
Qed.

(** ** [rstrip] *)

Lemma rstrip_zero_zeros (n : nat) : rstrip_zero (repeat x00 n) = [].
Proof.
  induction n as [|n IH]; simpl; [reflexivity|].
  now rewrite IH.
Qed.

Lemma rstrip_zero_app_zeros (p : bytes) (n : nat) :
  rstrip_zero (p ++ repeat x00 n) = rstrip_zero p.
Proof.
  induction p as [|x t IH]; simpl.
  - apply rstrip_zero_zeros.
  - now rewrite IH.
Qed.

Lemma rstrip_zero_fixed (p : bytes) :
  p <> [] -> last p x00 <> x00 -> rstrip_zero p = p.
Proof.
  induction p as [|x t IH]; intros Hne Hlast; [contradiction|].
  destruct t as [|y t'].
  - simpl in *. now rewrite byte_eqb_neq.
  - change (rstrip_zero (x :: y :: t'))
      with (match rstrip_zero (y :: t') with
            | [] => if Byte.eqb x x00 then [] else [x]
            | r => x :: r
            end).
    rewrite IH; [reflexivity|discriminate|exact Hlast].
Qed.

(** ** ECB over a block function *)

Section Ecb.
Variables f g : bytes -> bytes.
Hypothesis f_length : forall b, length b = 16%nat -> length (f b) = 16%nat.
Hypothesis g_f : forall b, length b = 16%nat -> g (f b) = b.

Lemma ecb_blocks_length (n : nat) (data : bytes) :
  length data = (16 * n)%nat -> length (ecb_blocks f n data) = (16 * n)%nat.
Proof.
  revert data. induction n as [|n IH]; intros data Hlen; [reflexivity|].
  cbn [ecb_blocks]. rewrite length_app, f_length, IH.
  - lia.
  - rewrite length_skipn. lia.
  - rewrite length_firstn. lia.
Qed.

Lemma ecb_blocks_inverse (n : nat) (data : bytes) :
  length data = (16 * n)%nat -> ecb_blocks g n (ecb_blocks f n data) = data.
Proof.
  revert data. induction n as [|n IH]; intros data Hlen.
  - destruct data; [reflexivity|discriminate].
  - cbn [ecb_blocks].
    assert (H16 : length (firstn 16 data) = 16%nat)
      by (rewrite length_firstn; lia).
    pose proof (f_length _ H16) as Hf.
    replace (firstn 16 (f (firstn 16 data) ++ ecb_blocks f n (skipn 16 data)))
      with (f (firstn 16 data))
      by (rewrite <- Hf at 2; now rewrite firstn_app, Nat.sub_diag, firstn_all,
            firstn_O, app_nil_r).
    replace (skipn 16 (f (firstn 16 data) ++ ecb_blocks f n (skipn 16 data)))
      with (ecb_blocks f n (skipn 16 data))
      by (rewrite <- Hf at 2; now rewrite skipn_app, Nat.sub_diag, skipn_all).
    rewrite g_f by exact H16.
    rewrite IH by (rewrite length_skipn; lia).
    apply firstn_skipn.
Qed.

End Ecb.

(** The padded length is a whole number of blocks. *)
Lemma padded_length (n : nat) :
  exists q, (n + (16 - n mod 16) = 16 * q)%nat /\ (0 < q)%nat /\
            (q = n / 16 + 1)%nat.
Proof.
  exists (n / 16 + 1)%nat.
  pose proof (Nat.div_mod_eq n 16).
  pose proof (Nat.mod_upper_bound n 16). lia.
Qed.

Lemma update_finalize_blocks (h : bytes -> bytes) (data : bytes) (q : nat) :
  length data = (16 * q)%nat ->
  update_finalize h data = Return (ecb_blocks h q data).
Proof.
  intros Hlen. unfold update_finalize. rewrite Hlen.
  replace (16 * q)%nat with (q * 16)%nat by lia.
  rewrite Nat.Div0.mod_mul, Nat.div_mul by lia. reflexivity.
Qed.

Lemma update_finalize_misaligned (h : bytes -> bytes) (data : bytes) :
  (length data mod 16 <> 0)%nat -> update_finalize h data = Raise ValueError.
Proof.
  intros Hlen. unfold update_finalize.
  destruct (Nat.eqb_spec (length data mod 16) 0); [contradiction|reflexivity].
Qed.

(** ** The shift cipher satisfies the laws of the interface *)

Lemma zip_with_length (h : byte -> byte -> byte) (b k : bytes) :
  length (zip_with h b k) = Nat.min (length b) (length k).
Proof.
  revert k. induction b as [|x b IH]; intros [|y k]; simpl; auto.
Qed.

Lemma unshift_shift_byte (x k : byte) : unshift_byte (shift_byte x k) k = x.
Proof.
  unfold unshift_byte, shift_byte.
  pose proof (int_of_byte_range x) as Hx.
  rewrite int_of_byte_of_int by (apply Z.mod_pos_bound; lia).
  rewrite Zminus_mod_idemp_l.
  replace (int_of_byte x + int_of_byte k - int_of_byte k) with (int_of_byte x)
    by lia.
  rewrite Z.mod_small by exact Hx.
  apply byte_of_int_of_byte.
Qed.

Lemma unshift_shift (b k : bytes) :
  (length b <= length k)%nat ->
  zip_with unshift_byte (zip_with shift_byte b k) k = b.
Proof.
  revert k. induction b as [|x b IH]; intros [|y k] Hlen; simpl in *;
    try reflexivity; try lia.
  rewrite unshift_shift_byte, IH by lia. reflexivity.
Qed.

Lemma shift_cipher_laws : BlockCipherLaws shift_cipher.
Proof.
  split; simpl; intros k b Hk Hb; apply Nat.eqb_eq in Hk.
  - rewrite zip_with_length. lia.
  - rewrite zip_with_length. lia.
  - apply unshift_shift. lia.
Qed.

(** ** Cipher transform: [_encrypt_payload] and [_decrypt_payload] *)

Section CipherTransform.
Context `{C : BlockCipher}.

Lemma encrypt_payload_blocks (key payload : bytes) :
  key_ok key = true ->
  encrypt_payload key payload =
  Return (ecb_blocks (encrypt_block key) (length payload / 16 + 1)
            (payload ++ repeat x00 (16 - length payload mod 16))).
Proof.
  intros Hk. unfold encrypt_payload, Cipher. rewrite Hk. cbn [obind].
  destruct (padded_length (length payload)) as (q & Hq & _ & ->).
  apply update_finalize_blocks.
  now rewrite length_app, repeat_length.
Qed.

Lemma decrypt_payload_misaligned (key data : bytes) :
  (length data mod 16 <> 0)%nat ->
  decrypt_payload key data = Raise ValueError.
Proof.
  intros Hlen. unfold decrypt_payload, Cipher.
  destruct (key_ok key); cbn [obind]; [|reflexivity].
  now rewrite update_finalize_misaligned.
Qed.

Lemma decrypt_payload_aligned (key data : bytes) :
  key_ok key = true -> (length data mod 16 = 0)%nat ->
  decrypt_payload key data =
  Return (rstrip_zero (ecb_blocks (decrypt_block key) (length data / 16) data)).
Proof.
  intros Hk Hlen. unfold decrypt_payload, Cipher, update_finalize.
  now rewrite Hk, Hlen.
Qed.

Context {L : BlockCipherLaws C}.

Lemma encrypt_payload_length (key payload ciphertext : bytes) :
  key_ok key = true ->
  encrypt_payload key payload = Return ciphertext ->
  length ciphertext = (length payload + (16 - length payload mod 16))%nat.
Proof.
  intros Hk. rewrite encrypt_payload_blocks by exact Hk.
  intros E.
  destruct (padded_length (length payload)) as (q & Hq & _ & Hq').
  rewrite <- Hq' in E. rewrite Hq.
  assert (ciphertext =
          ecb_blocks (encrypt_block key) q
            (payload ++ repeat x00 (16 - length payload mod 16)))
    as -> by congruence.
  apply ecb_blocks_length.
  - intros b Hb. now apply encrypt_block_length.
  - now rewrite length_app, repeat_length.
Qed.

Lemma decrypt_encrypt_payload (key payload : bytes) :
  key_ok key = true ->
  (ciphertext <-? encrypt_payload key payload;
   decrypt_payload key ciphertext) = Return (rstrip_zero payload).
Proof.
  intros Hk. rewrite encrypt_payload_blocks by exact Hk. cbn [obind].
  destruct (padded_length (length payload)) as (q & Hq & _ & Hq').
  rewrite <- Hq'.
  set (padded := payload ++ repeat x00 (16 - length payload mod 16)).
  assert (Hp : length padded = (16 * q)%nat)
    by (unfold padded; now rewrite length_app, repeat_length).
  assert (Hc : length (ecb_blocks (encrypt_block key) q padded) = (16 * q)%nat).
  { apply ecb_blocks_length; [|exact Hp].
    intros b Hb. now apply encrypt_block_length. }
  unfold decrypt_payload, Cipher. rewrite Hk. cbn [obind].
  rewrite (update_finalize_blocks _ _ q) by exact Hc. cbn [obind].
  rewrite ecb_blocks_inverse; [|intros b Hb; now apply encrypt_block_length
                               |intros b Hb; now apply decrypt_encrypt_block
                               |exact Hp].
  unfold padded. now rewrite rstrip_zero_app_zeros.
Qed.

End CipherTransform.

(** C8. Cipher round trip: a plaintext of 1 to 15 bytes that does not end in
    a zero byte is padded with zero bytes to one 16-byte block, which is
    encrypted; decrypting that ciphertext and stripping every trailing zero
    byte gives the plaintext back exactly. *)
Theorem cipher_roundtrip (C : BlockCipher) (L : BlockCipherLaws C)
  (key plaintext : bytes) :
  key_ok key = true ->
  (1 <= length plaintext <= 15)%nat ->
  last plaintext x00 <> x00 ->
  exists ciphertext,
    encrypt_payload key plaintext = Return ciphertext /\
    ciphertext =
      encrypt_block key (plaintext ++ repeat x00 (16 - length plaintext)) /\
    decrypt_payload key ciphertext = Return plaintext.
Proof.
  intros Hk Hlen Hlast.
  pose proof (decrypt_encrypt_payload key plaintext Hk) as Hrt.
  rewrite encrypt_payload_blocks in * by exact Hk.
  rewrite Nat.div_small, Nat.mod_small in * by lia.
  cbn [Nat.add ecb_blocks obind] in *.
  rewrite app_nil_r, firstn_all2 in *
    by (rewrite length_app, repeat_length; lia).
  eexists. split; [reflexivity|]. split; [reflexivity|].
  rewrite Hrt. f_equal. apply rstrip_zero_fixed; [|exact Hlast].
  destruct plaintext; [simpl in Hlen; lia|discriminate].
Qed.

Lemma cipher_roundtrip_witness :
  exists ciphertext,
    @encrypt_payload shift_cipher example_key [x68; x69] = Return ciphertext /\
    ciphertext =
      @encrypt_block shift_cipher example_key
        ([x68; x69] ++ repeat x00 (16 - length [x68; x69])) /\
    @decrypt_payload shift_cipher example_key ciphertext = Return [x68; x69].
Proof.
  apply (cipher_roundtrip shift_cipher shift_cipher_laws example_key [x68; x69]).
  - reflexivity.
  - simpl. lia.
  - simpl. discriminate.
Defined.

(** C10. Encryption padding length: the ciphertext has
    [len(plaintext) + (16 - len(plaintext) mod 16)] bytes; it is strictly
    longer than the plaintext and a non-zero multiple of 16; when the
    plaintext length is a multiple of 16 (the empty plaintext included) a
    whole block of 16 zero bytes is what gets appended before encryption. *)
Theorem encrypt_padding_length (C : BlockCipher) (L : BlockCipherLaws C)
  (key plaintext : bytes) :
  key_ok key = true ->
  exists ciphertext,
    encrypt_payload key plaintext = Return ciphertext /\
    length ciphertext =
      (length plaintext + (16 - length plaintext mod 16))%nat /\
    (length plaintext < length ciphertext)%nat /\
    (length ciphertext mod 16 = 0)%nat /\
    (0 < length ciphertext)%nat /\
    ((length plaintext mod 16 = 0)%nat ->
     length ciphertext = (length plaintext + 16)%nat /\
     update_finalize (encrypt_block key) (plaintext ++ repeat x00 16) =
       Return ciphertext).
Proof.
  intros Hk.
  destruct (encrypt_payload key plaintext) as [c|e] eqn:E;
    [|rewrite encrypt_payload_blocks in E by exact Hk; discriminate].
  pose proof (encrypt_payload_length key plaintext c Hk E) as Hc.
  destruct (padded_length (length plaintext)) as (q & Hq & Hq0 & _).
  pose proof (Nat.mod_upper_bound (length plaintext) 16).
  exists c.
  split; [reflexivity|]. split; [exact Hc|]. split; [lia|].
  split; [|split; [lia|]].
  - rewrite Hc, Hq. replace (16 * q)%nat with (q * 16)%nat by lia.
    now apply Nat.Div0.mod_mul.
  - intros Hmod. split; [lia|].
    rewrite <- E. unfold encrypt_payload, Cipher.
    now rewrite Hk, Hmod.
Qed.

Lemma encrypt_padding_length_witness :
  exists ciphertext,
    @encrypt_payload shift_cipher example_key [] = Return ciphertext /\
    length ciphertext = (length (@nil byte) + (16 - length (@nil byte) mod 16))%nat /\
    (length (@nil byte) < length ciphertext)%nat /\
    (length ciphertext mod 16 = 0)%nat /\
    (0 < length ciphertext)%nat /\
    ((length (@nil byte) mod 16 = 0)%nat ->
     length ciphertext = (length (@nil byte) + 16)%nat /\
     update_finalize (@encrypt_block shift_cipher example_key)
       ([] ++ repeat x00 16) = Return ciphertext).
Proof.
  apply (encrypt_padding_length shift_cipher shift_cipher_laws example_key []).
  reflexivity.
Defined.

(** ** Packet codec: [_create_mesh_packet] and the header parsing *)

Lemma lor_shiftl_shiftr_land (v : Z) :
  Z.lor (Z.shiftl (Z.shiftr v 8) 8) (Z.land v 255) = v.
Proof.
  apply Z.bits_inj'. intros n Hn.
  change 255 with (Z.ones 8).
  rewrite Z.lor_spec, Z.land_spec.
  destruct (Z.ltb_spec n 8) as [Hlt|Hge].
  - rewrite Z.shiftl_spec_low, Z.ones_spec_low by lia.
    now rewrite andb_true_r.
  - rewrite Z.shiftl_spec_high, Z.shiftr_spec, Z.ones_spec_high by lia.
    rewrite andb_false_r, orb_false_r. f_equal. lia.
Qed.

Lemma shiftr8_range (v : Z) : 0 <= v <= 65535 -> 0 <= Z.shiftr v 8 < 256.
Proof.
  intros Hv. rewrite Z.shiftr_div_pow2 by lia. change (2 ^ 8) with 256.
  split; [apply Z.div_pos; lia|apply Z.div_lt_upper_bound; lia].
Qed.

Lemma land255_range (v : Z) : 0 <= Z.land v 255 < 256.
Proof.
  change 255 with (Z.ones 8). rewrite Z.land_ones by lia.
  apply Z.mod_pos_bound. reflexivity.
Qed.

Lemma pack_H_ok (v : Z) :
  0 <= v <= 65535 ->
  pack_H v = Return [byte_of_int (Z.shiftr v 8); byte_of_int (Z.land v 255)].
Proof.
  intros Hv. unfold pack_H.
  destruct (Z.leb_spec 0 v), (Z.leb_spec v 65535); try lia. reflexivity.
Qed.

Lemma pack_B_ok (v : Z) : 0 <= v <= 255 -> pack_B v = Return [byte_of_int v].
Proof.
  intros Hv. unfold pack_B.
  destruct (Z.leb_spec 0 v), (Z.leb_spec v 255); try lia. reflexivity.
Qed.

(** Big-endian 16-bit fields survive packing and unpacking. *)
Lemma unpack_pack_H (v : Z) :
  0 <= v <= 65535 ->
  unpack_H [byte_of_int (Z.shiftr v 8); byte_of_int (Z.land v 255)] = Return v.
Proof.
  intros Hv. unfold unpack_H.
  rewrite !int_of_byte_of_int by (apply shiftr8_range || apply land255_range; lia).
  now rewrite lor_shiftl_shiftr_land.
Qed.

(** The frame that [_create_mesh_packet] returns: the slice assignment
    [packet[7:] = payload] keeps seven header bytes and puts the payload
    right behind them. *)
Lemma create_mesh_packet_frame (self : BluetoothMeshComm)
  (destination_id opcode : Z) (payload : bytes) (ttl : Z) :
  packable self ->
  0 <= opcode <= 255 -> 0 <= destination_id <= 65535 -> 0 <= ttl <= 255 ->
  _create_mesh_packet destination_id opcode payload ttl self =
  (Return (frame_prefix opcode (node_id self) destination_id ttl
             (sequence_number self) ++ payload),
   set_sequence_number ((sequence_number self + 1) mod 0xFFFF) self,
   []).
Proof.
  intros [Hn Hs] Ho Hd Ht.
  unfold _create_mesh_packet, bind, lift, gets, modify, ret.
  unfold setitem, pack_into_HHBH, pack_HHBH, bytearray.
  cbn [Nat.add repeat length Nat.ltb Nat.leb].
  destruct (Z.leb_spec 0 opcode), (Z.ltb_spec opcode 256); try lia.
  rewrite !pack_H_ok, pack_B_ok by lia.
  reflexivity.
Qed.

(** The parse of a buffer of at least 8 bytes. *)
Lemma parse_mesh_packet_cons (b0 b1 b2 b3 b4 b5 b6 b7 : byte) (rest : bytes) :
  parse_mesh_packet (b0 :: b1 :: b2 :: b3 :: b4 :: b5 :: b6 :: b7 :: rest) =
  Return (Some (mkPacket (int_of_byte b0)
                  (Z.lor (Z.shiftl (int_of_byte b1) 8) (int_of_byte b2))
                  (Z.lor (Z.shiftl (int_of_byte b3) 8) (int_of_byte b4))
                  (int_of_byte b5)
                  (Z.lor (Z.shiftl (int_of_byte b6) 8) (int_of_byte b7))
                  rest)).
Proof. reflexivity. Qed.

Lemma parse_mesh_packet_short (scan_record : bytes) :
  (length scan_record < 8)%nat -> parse_mesh_packet scan_record = Return None.
Proof.
  intros Hlen. unfold parse_mesh_packet.
  destruct (Nat.ltb_spec (length scan_record) 8); [reflexivity|lia].
Qed.

Lemma long_buffer (scan_record : bytes) :
  (8 <= length scan_record)%nat ->
  exists b0 b1 b2 b3 b4 b5 b6 b7 rest,
    scan_record = b0 :: b1 :: b2 :: b3 :: b4 :: b5 :: b6 :: b7 :: rest.
Proof.
  intros Hlen.
  do 8 (destruct scan_record as [|? scan_record]; [simpl in Hlen; lia|]).
  repeat eexists.
Qed.

(** What the receiver reads back from a frame built by
    [_create_mesh_packet] with a non-empty payload: the sequence field is
    made of the high byte of the counter and the first payload byte, and the
    payload has lost that byte. *)
Lemma parse_created_frame (opcode node_id destination_id ttl sequence_number : Z)
  (p0 : byte) (payload : bytes) :
  0 <= opcode <= 255 -> 0 <= node_id <= 65535 ->
  0 <= destination_id <= 65535 -> 0 <= ttl <= 255 ->
  0 <= sequence_number <= 65535 ->
  parse_mesh_packet
    (frame_prefix opcode node_id destination_id ttl sequence_number
       ++ p0 :: payload) =
  Return (Some (mkPacket opcode node_id destination_id ttl
                  (Z.lor (Z.shiftl (Z.shiftr sequence_number 8) 8)
                         (int_of_byte p0))
                  payload)).
Proof.
  intros Ho Hn Hd Ht Hs. unfold frame_prefix. cbn [app].
  rewrite parse_mesh_packet_cons.
  rewrite !int_of_byte_of_int
    by (try apply shiftr8_range; try apply land255_range; lia).
  now rewrite !lor_shiftl_shiftr_land.
Qed.

(** With an empty payload the frame has 7 bytes and is not parsed at all. *)
Lemma parse_created_frame_empty
  (opcode node_id destination_id ttl sequence_number : Z) :
  parse_mesh_packet
    (frame_prefix opcode node_id destination_id ttl sequence_number ++ []) =
  Return None.
Proof. reflexivity. Qed.

(** C1. Codec round trip, at node 1 with counter 0x0102: the frame built for
    (opcode 1, destination 0xFFFF, ttl 7, payload 41 42) is
    01 00 01 FF FF 07 01 41 42 -- the payload starts at byte 7, not at
    byte 8 -- and the header parsing reads sequence number 0x0141 and
    payload 42 from it instead of 0x0102 and 41 42. *)
Theorem codec_roundtrip_fails :
  _create_mesh_packet 0xFFFF 0x01 [x41; x42] 7 (started 1 0x0102 None) =
    (Return [x01; x00; x01; xff; xff; x07; x01; x41; x42],
     started 1 0x0103 None, []) /\
  parse_mesh_packet [x01; x00; x01; xff; xff; x07; x01; x41; x42] =
    Return (Some (mkPacket 0x01 1 0xFFFF 7 0x0141 [x42])) /\
  mkPacket 0x01 1 0xFFFF 7 0x0141 [x42] <>
    mkPacket 0x01 1 0xFFFF 7 0x0102 [x41; x42].
Proof.
  repeat split. discriminate.
Qed.

(** ** Sequence counter *)

Lemma build_packets_counter (n : nat) (self : BluetoothMeshComm)
  (destination_id opcode : Z) (payload : bytes) (ttl : Z) :
  0 <= node_id self <= 65535 -> 0 <= sequence_number self < 65535 ->
  0 <= opcode <= 255 -> 0 <= destination_id <= 65535 -> 0 <= ttl <= 255 ->
  result (build_packets n destination_id opcode payload ttl self) = Return tt /\
  sequence_number
    (final (build_packets n destination_id opcode payload ttl self)) =
    (sequence_number self + Z.of_nat n) mod 0xFFFF.
Proof.
  intros Hn Hs Ho Hd Ht. revert self Hn Hs.
  induction n as [|n IH]; intros self Hn Hs.
  - split; [reflexivity|]. cbn [build_packets ret final fst snd].
    rewrite Z.add_0_r, Z.mod_small by lia. reflexivity.
  - cbn [build_packets]. unfold bind at 1 2.
    rewrite create_mesh_packet_frame by (unfold packable; lia).
    pose proof (Z.mod_pos_bound (sequence_number self + 1) 0xFFFF) as Hb.
    destruct (IH (set_sequence_number ((sequence_number self + 1) mod 0xFFFF)
                    self)) as [Hr Hf];
      [exact Hn|cbn [sequence_number set_sequence_number]; lia|].
    destruct (build_packets n destination_id opcode payload ttl
                (set_sequence_number ((sequence_number self + 1) mod 0xFFFF) self))
      as [[r self'] t].
    unfold result, final in *. cbn [fst snd] in *.
    split; [exact Hr|]. rewrite Hf.
    cbn [sequence_number set_sequence_number].
    rewrite Zplus_mod_idemp_l. f_equal. lia.
Qed.

(** C3. Sequence counter: it starts at 0, but the successor of 65534 is 0
    where (s + 1) mod 65536 is 65535 -- the counter is reduced modulo
    0xFFFF = 65535 -- and after 65536 packets built from the initial state
    the next sequence number is 1, not 0. *)
Theorem sequence_counter_wraps_at_65535 :
  sequence_number (__init__ 1 []) = 0 /\
  sequence_number
    (final (_create_mesh_packet 0xFFFF 0x01 [] 7
              (set_sequence_number 65534 (__init__ 1 [])))) = 0 /\
  (65534 + 1) mod 65536 = 65535 /\
  sequence_number
    (final (build_packets (256 * 256) 0xFFFF 0x01 [] 7 (__init__ 1 []))) = 1.
Proof.
  split; [reflexivity|]. split; [reflexivity|]. split; [reflexivity|].
  pose proof (build_packets_counter (256 * 256) (__init__ 1 [])
                0xFFFF 0x01 [] 7) as Hcount.
  destruct Hcount as [_ Hf]; [cbn [__init__ node_id sequence_number]; lia..|].
  rewrite Hf. vm_compute. reflexivity.
Qed.

(** ** Relay engine: [_process_mesh_message] *)

Lemma lor_shiftl8_range (hi lo : byte) :
  0 <= Z.lor (Z.shiftl (int_of_byte hi) 8) (int_of_byte lo) <= 65535.
Proof.
  pose proof (int_of_byte_range hi) as Hhi.
  pose proof (int_of_byte_range lo) as Hlo.
  pose proof (Z.add_lor_land (Z.shiftl (int_of_byte hi) 8) (int_of_byte lo)) as Ha.
  assert (0 <= Z.land (Z.shiftl (int_of_byte hi) 8) (int_of_byte lo))
    by (apply Z.land_nonneg; lia).
  assert (0 <= Z.lor (Z.shiftl (int_of_byte hi) 8) (int_of_byte lo))
    by (apply Z.lor_nonneg; split; [apply Z.shiftl_nonneg|]; lia).
  rewrite Z.shiftl_mul_pow2 in * by lia. change (2 ^ 8) with 256 in *. lia.
Qed.

(** The fields of a parsed header fit their width. *)
Lemma parse_mesh_packet_ranges (scan_record : bytes) (p : mesh_packet) :
  parse_mesh_packet scan_record = Return (Some p) ->
  0 <= opcode p <= 255 /\ 0 <= source_id p <= 65535 /\
  0 <= destination_id p <= 65535 /\ 0 <= ttl p <= 255 /\
  0 <= seq_num p <= 65535 /\
  (8 <= length scan_record)%nat /\
  encrypted_payload p = slice_from scan_record 8.
Proof.
  intros Hparse.
  destruct (Nat.ltb_spec (length scan_record) 8) as [Hlt|Hge].
  - rewrite parse_mesh_packet_short in Hparse by exact Hlt. discriminate.
  - destruct (long_buffer scan_record Hge)
      as (b0 & b1 & b2 & b3 & b4 & b5 & b6 & b7 & rest & ->).
    rewrite parse_mesh_packet_cons in Hparse.
    assert (Hp : p = mkPacket (int_of_byte b0)
                  (Z.lor (Z.shiftl (int_of_byte b1) 8) (int_of_byte b2))
                  (Z.lor (Z.shiftl (int_of_byte b3) 8) (int_of_byte b4))
                  (int_of_byte b5)
                  (Z.lor (Z.shiftl (int_of_byte b6) 8) (int_of_byte b7))
                  rest) by congruence.
    subst p. cbn [opcode source_id destination_id ttl seq_num encrypted_payload].
    pose proof (int_of_byte_range b0). pose proof (int_of_byte_range b5).
    pose proof (lor_shiftl8_range b1 b2). pose proof (lor_shiftl8_range b3 b4).
    pose proof (lor_shiftl8_range b6 b7).
    repeat split; lia || exact Hge.
Qed.

Section RelayEngine.
Context `{C : BlockCipher}.

Lemma advertise_packet_ok (self : BluetoothMeshComm) (packet : bytes)
  (cb : callback) :
  advertise_callback self = Some cb ->
  _advertise_packet packet self =
  (Return tt, self, [StartAdvertising (Some packet); StopAdvertising]).
Proof.
  intros Hcb. unfold _advertise_packet, bind, getattr, emit.
  rewrite Hcb. cbn iota beta. rewrite Hcb. reflexivity.
Qed.

Lemma advertise_packet_unset (self : BluetoothMeshComm) (packet : bytes) :
  advertise_callback self = None ->
  _advertise_packet packet self = (Raise AttributeError, self, []).
Proof.
  intros Hcb. unfold _advertise_packet, bind, getattr.
  rewrite Hcb. reflexivity.
Qed.

(** Fewer than 8 bytes: nothing happens. *)
Lemma process_short (self : BluetoothMeshComm) (scan_record : bytes) :
  (length scan_record < 8)%nat ->
  _process_mesh_message scan_record self = (Return tt, self, []).
Proof.
  intros Hlen. unfold _process_mesh_message, bind, lift.
  now rewrite parse_mesh_packet_short.
Qed.

(** An exhausted packet: nothing happens. *)
Lemma process_exhausted (self : BluetoothMeshComm) (scan_record : bytes)
  (p : mesh_packet) :
  parse_mesh_packet scan_record = Return (Some p) -> ttl p = 0 ->
  _process_mesh_message scan_record self = (Return tt, self, []).
Proof.
  intros Hparse Httl. unfold _process_mesh_message, bind, lift.
  rewrite Hparse, Httl. reflexivity.
Qed.

(** The cipher refuses the ciphertext: the exception leaves the method. *)
Lemma process_decrypt_error (self : BluetoothMeshComm) (scan_record : bytes)
  (p : mesh_packet) (e : exn) :
  parse_mesh_packet scan_record = Return (Some p) -> 0 < ttl p ->
  decrypt_payload (network_key self) (encrypted_payload p) = Raise e ->
  _process_mesh_message scan_record self =
  (Raise e, self, [CipherDecrypt (encrypted_payload p)]).
Proof.
  intros Hparse Httl Hdec.
  unfold _process_mesh_message, _decrypt_payload, bind, lift, gets, emit.
  rewrite Hparse. destruct (Z.leb_spec (ttl p) 0); [lia|].
  rewrite Hdec. reflexivity.
Qed.

(** Delivery without relay: last hop, or the node is not running. *)
Lemma process_deliver_only (self : BluetoothMeshComm) (scan_record : bytes)
  (p : mesh_packet) (payload : bytes) :
  parse_mesh_packet scan_record = Return (Some p) -> 0 < ttl p ->
  decrypt_payload (network_key self) (encrypted_payload p) = Return payload ->
  ttl p = 1 \/ running self = false ->
  _process_mesh_message scan_record self =
  (Return tt, self,
   CipherDecrypt (encrypted_payload p) :: delivery self p payload).
Proof.
  intros Hparse Httl Hdec Hstop.
  unfold _process_mesh_message, _decrypt_payload, bind, lift, gets, emit, ret,
    delivery.
  rewrite Hparse. destruct (Z.leb_spec (ttl p) 0); [lia|].
  rewrite Hdec.
  assert (Hcond : (ttl p >? 1) && running self = false).
  { destruct Hstop as [-> | ->]; [reflexivity|apply andb_false_r]. }
  destruct (opcode p =? 1); [destruct (message_callback self)|];
    cbn [app]; rewrite Hcond; reflexivity.
Qed.

(** Delivery and relay: the frame handed to the radio. *)
Lemma process_relay (self : BluetoothMeshComm) (scan_record : bytes)
  (p : mesh_packet) (payload : bytes) (cb : callback) :
  packable self -> advertise_callback self = Some cb ->
  parse_mesh_packet scan_record = Return (Some p) -> 1 < ttl p ->
  decrypt_payload (network_key self) (encrypted_payload p) = Return payload ->
  running self = true ->
  _process_mesh_message scan_record self =
  (Return tt,
   set_sequence_number ((sequence_number self + 1) mod 0xFFFF) self,
   CipherDecrypt (encrypted_payload p) :: delivery self p payload ++
   [StartAdvertising
      (Some (frame_prefix (opcode p) (node_id self) (destination_id p)
               (ttl p - 1) (sequence_number self) ++ payload));
    StopAdvertising]).
Proof.
  intros Hpack Hcb Hparse Httl Hdec Hrun.
  destruct (parse_mesh_packet_ranges _ _ Hparse) as (Ho & _ & Hd & Ht & _).
  unfold _process_mesh_message, _decrypt_payload,
    bind, lift, gets, emit, ret, delivery.
  rewrite Hparse. destruct (Z.leb_spec (ttl p) 0); [lia|].
  rewrite Hdec.
  assert (Hcond : (ttl p >? 1) && running self = true).
  { rewrite Hrun, andb_true_r. apply Z.gtb_lt. lia. }
  destruct (opcode p =? 1); [destruct (message_callback self)|];
    cbn [app]; rewrite Hcond;
    rewrite create_mesh_packet_frame by (assumption || lia);
    rewrite (advertise_packet_ok _ _ cb) by exact Hcb; reflexivity.
Qed.

End RelayEngine.

(** The header fields that can be read back from a built frame. *)
Lemma frame_fields (opcode node_id destination_id ttl sequence_number : Z)
  (payload : bytes) :
  0 <= opcode <= 255 -> 0 <= node_id <= 65535 ->
  0 <= destination_id <= 65535 -> 0 <= ttl <= 255 ->
  0 <= sequence_number <= 65535 ->
  let frame :=
    frame_prefix opcode node_id destination_id ttl sequence_number ++ payload in
  getitem frame 0 = Return opcode /\
  unpack_H (slice frame 1 3) = Return node_id /\
  unpack_H (slice frame 3 5) = Return destination_id /\
  getitem frame 5 = Return ttl /\
  getitem frame 6 = Return (Z.shiftr sequence_number 8).
Proof.
  intros Ho Hn Hd Ht Hs frame. subst frame.
  unfold frame_prefix, getitem, slice.
  cbn [app nth_error Nat.sub skipn firstn].
  rewrite !unpack_pack_H by assumption.
  rewrite !int_of_byte_of_int by (try apply shiftr8_range; lia).
  repeat split.
Qed.

(** C5. TTL exhaustion: a received buffer of at least 8 bytes whose ttl
    byte (offset 5) is 0 ends the method at once: it returns normally, the
    node is unchanged and no event is issued -- no call to the cipher, no
    callback, no advertisement. *)
Theorem exhausted_ttl_is_never_processed (C : BlockCipher)
  (self : BluetoothMeshComm) (scan_record : bytes) :
  (8 <= length scan_record)%nat ->
  getitem scan_record 5 = Return 0 ->
  _process_mesh_message scan_record self = (Return tt, self, []).
Proof.
  intros Hlen Httl.
  destruct (long_buffer scan_record Hlen)
    as (b0 & b1 & b2 & b3 & b4 & b5 & b6 & b7 & rest & ->).
  eapply process_exhausted; [apply parse_mesh_packet_cons|].
  cbn [ttl]. unfold getitem in Httl. cbn [nth_error] in Httl. congruence.
Qed.

Lemma exhausted_ttl_is_never_processed_witness :
  @_process_mesh_message shift_cipher
    ([x01; x00; x01; xff; xff; x00; x00; x00] ++ repeat x41 16)
    (started 2 0 (Some (AppCallback 0))) =
  (Return tt, started 2 0 (Some (AppCallback 0)), []).
Proof.
  apply (exhausted_ttl_is_never_processed shift_cipher
           (started 2 0 (Some (AppCallback 0)))
           ([x01; x00; x01; xff; xff; x00; x00; x00] ++ repeat x41 16)).
  - simpl. lia.
  - reflexivity.
Defined.

(** A ciphertext that is not a whole number of blocks makes the receive
    path raise, whatever the key. *)
Lemma process_misaligned_raises (C : BlockCipher) (self : BluetoothMeshComm)
  (scan_record : bytes) (p : mesh_packet) :
  parse_mesh_packet scan_record = Return (Some p) -> 0 < ttl p ->
  (length (encrypted_payload p) mod 16 <> 0)%nat ->
  _process_mesh_message scan_record self =
  (Raise ValueError, self, [CipherDecrypt (encrypted_payload p)]).
Proof.
  intros Hparse Httl Hlen.
  apply process_decrypt_error; try assumption.
  now apply decrypt_payload_misaligned.
Qed.

(** C4. Receive-path robustness, at the 9-byte buffer
    01 00 01 FF FF 01 00 00 41 (ttl 1, one byte of ciphertext): the method
    does not drop the packet, it ends with [ValueError] raised by the
    cipher, for every cipher and every node. *)
Theorem misaligned_ciphertext_is_not_dropped (C : BlockCipher)
  (self : BluetoothMeshComm) :
  _process_mesh_message [x01; x00; x01; xff; xff; x01; x00; x00; x41] self =
  (Raise ValueError, self, [CipherDecrypt [x41]]).
Proof.
  apply (process_misaligned_raises C self _
           (mkPacket 1 1 0xFFFF 1 0 [x41])).
  - reflexivity.
  - reflexivity.
  - discriminate.
Qed.

(** C9. [stop] on a node that was never started, or whose [start] was
    refused because the adapter is disabled: [running] is set to [False]
    and then reading [self.scan_callback], which only [_start_scanning]
    assigns, raises [AttributeError]. *)
Theorem stop_before_start_raises (node_id : Z) (network_key : bytes) :
  let fresh := __init__ node_id network_key in
  stop fresh = (Raise AttributeError, fresh, []) /\
  start false fresh = (Return tt, fresh, [Print "Bluetooth not enabled"]) /\
  stop (final (start false fresh)) = (Raise AttributeError, fresh, []).
Proof.
  repeat split.
Qed.

(** Once both callbacks exist (after a successful [start] and the first
    statements of the presence thread), [stop] succeeds and can be
    repeated. *)
Lemma stop_ok (self : BluetoothMeshComm) (s a : callback) :
  scan_callback self = Some s -> advertise_callback self = Some a ->
  stop self = (Return tt, set_running false self, [StopScan; StopAdvertising]).
Proof.
  intros Hs Ha. destruct self as [n k r m q sc ac].
  cbn [scan_callback advertise_callback] in Hs, Ha. subst sc ac.
  reflexivity.
Qed.

Lemma stop_idempotent_once_started (self : BluetoothMeshComm)
  (s a : callback) :
  scan_callback self = Some s -> advertise_callback self = Some a ->
  final (stop (final (stop self))) = final (stop self) /\
  result (stop (final (stop self))) = Return tt.
Proof.
  intros Hs Ha. rewrite (stop_ok self s a Hs Ha).
  cbn [final fst snd]. rewrite (stop_ok _ s a) by assumption.
  split; reflexivity.
Qed.

Lemma presence_loop_state (cycles : nat) (self : BluetoothMeshComm)
  (a : callback) :
  advertise_callback self = Some a ->
  exists t, presence_loop cycles self = (Return tt, self, t).
Proof.
  intros Ha. induction cycles as [|n [t IH]].
  - now exists [].
  - cbn [presence_loop]. unfold bind, gets, getattr, emit.
    destruct (running self); [|now exists []].
    rewrite Ha. cbn iota beta. rewrite Ha. cbn iota beta. rewrite IH.
    eexists. reflexivity.
Qed.

Lemma start_then_stop (node_id : Z) (network_key : bytes) (cycles : nat) :
  let started := final (start true (__init__ node_id network_key)) in
  let advertising := final (_advertise_presence cycles started) in
  running started = true /\
  result (stop advertising) = Return tt /\
  running (final (stop advertising)) = false /\
  final (stop (final (stop advertising))) = final (stop advertising).
Proof.
  intros started advertising.
  assert (Hadv : advertising = set_advertise_callback AdvertiseCallback started).
  { subst advertising. unfold _advertise_presence, bind, modify.
    destruct (presence_loop_state cycles
                (set_advertise_callback AdvertiseCallback started)
                AdvertiseCallback eq_refl) as [t ->].
    reflexivity. }
  rewrite Hadv.
  split; [reflexivity|]. split; [reflexivity|]. split; reflexivity.
Qed.

Lemma delivery_no_transmission (self : BluetoothMeshComm) (p : mesh_packet)
  (payload : bytes) :
  existsb is_transmission (delivery self p payload) = false.
Proof.
  unfold delivery.
  destruct (opcode p =? 1); [destruct (message_callback self)|]; reflexivity.
Qed.

(** The relay decision: on a running node, a frame that parses and
    decrypts is re-advertised exactly when its ttl exceeds 1. *)
Lemma relay_iff_ttl_above_1 (C : BlockCipher) (self : BluetoothMeshComm)
  (scan_record : bytes) (p : mesh_packet) (payload : bytes) (cb : callback) :
  packable self -> advertise_callback self = Some cb -> running self = true ->
  parse_mesh_packet scan_record = Return (Some p) -> 0 < ttl p ->
  decrypt_payload (network_key self) (encrypted_payload p) = Return payload ->
  result (_process_mesh_message scan_record self) = Return tt /\
  existsb is_transmission (trace (_process_mesh_message scan_record self)) =
    (ttl p >? 1).
Proof.
  intros Hpack Hcb Hrun Hparse Httl Hdec.
  destruct (Z.eq_dec (ttl p) 1) as [H1|H1].
  - rewrite (process_deliver_only self scan_record p payload) by auto.
    unfold result, trace. cbn [fst snd existsb is_transmission].
    rewrite delivery_no_transmission, H1. split; reflexivity.
  - rewrite (process_relay self scan_record p payload cb)
      by (assumption || lia).
    unfold result, trace. cbn [fst snd existsb is_transmission].
    rewrite existsb_app, delivery_no_transmission.
    split; [reflexivity|]. symmetry. apply Z.gtb_lt. lia.
Qed.

(** A packet on its last hop is delivered to the registered callback when
    its opcode is 0x01, and nothing is advertised. *)
Lemma last_hop_is_delivered (C : BlockCipher) (self : BluetoothMeshComm)
  (scan_record : bytes) (p : mesh_packet) (payload : bytes) (h : callback) :
  parse_mesh_packet scan_record = Return (Some p) -> ttl p = 1 ->
  opcode p = 0x01 -> message_callback self = Some h ->
  decrypt_payload (network_key self) (encrypted_payload p) = Return payload ->
  _process_mesh_message scan_record self =
  (Return tt, self,
   [CipherDecrypt (encrypted_payload p);
    CallMessageCallback (source_id p) payload]).
Proof.
  intros Hparse Httl Hop Hcb Hdec.
  rewrite (process_deliver_only self scan_record p payload) by (auto; lia).
  unfold delivery. now rewrite Hop, Hcb.
Qed.

(** C6. Relay decision and TTL decrement, at a running node 2 whose counter
    is 0x0102 and which receives the frame 01 0001 FFFF 05 0000 followed by
    the encryption of "hi": the packet is relayed with ttl 4, but the
    relayed frame is 01 0002 FFFF 04 01 68 69 -- its sequence field reads
    0x0168, made of the high byte of the counter and the first payload byte,
    not the counter value 0x0102. *)
Theorem relayed_sequence_field_is_not_the_counter (C : BlockCipher)
  (L : BlockCipherLaws C) (key ciphertext : bytes) :
  key_ok key = true ->
  encrypt_payload key [x68; x69] = Return ciphertext ->
  let self := mkNode 2 key true None 0x0102
                     (Some ScanCallback) (Some AdvertiseCallback) in
  let received := [x01; x00; x01; xff; xff; x05; x00; x00] ++ ciphertext in
  let frame := [x01; x00; x02; xff; xff; x04; x01; x68; x69] in
  trace (_process_mesh_message received self) =
    [CipherDecrypt ciphertext; StartAdvertising (Some frame); StopAdvertising] /\
  parse_mesh_packet frame =
    Return (Some (mkPacket 0x01 2 0xFFFF 4 0x0168 [x69])) /\
  0x0168 <> sequence_number self.
Proof.
  intros Hk Henc self received frame.
  pose proof (decrypt_encrypt_payload key [x68; x69] Hk) as Hrt.
  rewrite Henc in Hrt. cbn [obind] in Hrt.
  split; [|split; [reflexivity|discriminate]].
  subst received.
  rewrite (process_relay self _ (mkPacket 0x01 1 0xFFFF 5 0 ciphertext)
             [x68; x69] AdvertiseCallback);
    try reflexivity; try exact Hrt.
  unfold packable. cbn [node_id sequence_number self]. lia.
Qed.

Lemma relayed_sequence_field_is_not_the_counter_witness :
  trace (@_process_mesh_message shift_cipher
           ([x01; x00; x01; xff; xff; x05; x00; x00] ++
            [x98; x99] ++ repeat x30 14)
           (started 2 0x0102 None)) =
    [CipherDecrypt ([x98; x99] ++ repeat x30 14);
     StartAdvertising (Some [x01; x00; x02; xff; xff; x04; x01; x68; x69]);
     StopAdvertising] /\
  parse_mesh_packet [x01; x00; x02; xff; xff; x04; x01; x68; x69] =
    Return (Some (mkPacket 0x01 2 0xFFFF 4 0x0168 [x69])) /\
  0x0168 <> sequence_number (started 2 0x0102 None).
Proof.
  apply (relayed_sequence_field_is_not_the_counter shift_cipher
           shift_cipher_laws example_key ([x98; x99] ++ repeat x30 14)).
  - reflexivity.
  - reflexivity.
Defined.

(** C2, as stated, fails: running node 2 relays the frame 02 0001 FFFF 05
    0000 (source 1, empty payload) as 02 0002 FFFF 04 00, whose source
    field is 2, the relaying node, and not 1. *)
Lemma relay_replaces_source_id :
  ~ (forall p frame,
       parse_mesh_packet [x02; x00; x01; xff; xff; x05; x00; x00] =
         Return (Some p) ->
       In (StartAdvertising (Some frame))
          (trace (@_process_mesh_message shift_cipher
                    [x02; x00; x01; xff; xff; x05; x00; x00]
                    (started 2 0 None))) ->
       unpack_H (slice frame 1 3) = Return (source_id p)).
Proof.
  intros Hclaim.
  specialize (Hclaim (mkPacket 2 1 0xFFFF 5 0 [])
                     [x02; x00; x02; xff; xff; x04; x00] eq_refl).
  assert (Hin : In (StartAdvertising (Some [x02; x00; x02; xff; xff; x04; x00]))
                   (trace (@_process_mesh_message shift_cipher
                             [x02; x00; x01; xff; xff; x05; x00; x00]
                             (started 2 0 None))))
    by (vm_compute; auto).
  specialize (Hclaim Hin). vm_compute in Hclaim. discriminate.
Qed.

(** C2 (amended). Relay frame: when a running node relays a received packet
    (ttl > 1, ciphertext accepted by the cipher), exactly one frame is
    advertised; it carries the opcode and the destination of the received
    packet, the relaying node's own id as source, the received ttl minus 1,
    the high byte of the node's own counter at offset 6, and the decrypted
    payload as its last bytes.  The node itself only changes its counter. *)
Theorem relay_frame_fields (C : BlockCipher) (self : BluetoothMeshComm)
  (scan_record : bytes) (p : mesh_packet) (payload : bytes) (cb : callback) :
  packable self -> advertise_callback self = Some cb -> running self = true ->
  parse_mesh_packet scan_record = Return (Some p) -> 1 < ttl p ->
  decrypt_payload (network_key self) (encrypted_payload p) = Return payload ->
  exists frame self',
    _process_mesh_message scan_record self =
      (Return tt, self',
       CipherDecrypt (encrypted_payload p) :: delivery self p payload ++
       [StartAdvertising (Some frame); StopAdvertising]) /\
    getitem frame 0 = Return (opcode p) /\
    unpack_H (slice frame 1 3) = Return (node_id self) /\
    unpack_H (slice frame 3 5) = Return (destination_id p) /\
    getitem frame 5 = Return (ttl p - 1) /\
    getitem frame 6 = Return (Z.shiftr (sequence_number self) 8) /\
    (exists header, frame = header ++ payload) /\
    set_sequence_number (sequence_number self) self' = self.
Proof.
  intros Hpack Hcb Hrun Hparse Httl Hdec.
  destruct (parse_mesh_packet_ranges _ _ Hparse) as (Ho & _ & Hd & Ht & _).
  pose proof Hpack as [Hn Hs].
  destruct (frame_fields (opcode p) (node_id self) (destination_id p)
              (ttl p - 1) (sequence_number self) payload)
    as (F0 & F1 & F3 & F5 & F6); try lia.
  eexists. eexists.
  split; [apply (process_relay self scan_record p payload cb); assumption|].
  repeat (split; [assumption|]).
  split; [eexists; reflexivity|].
  now destruct self.
Qed.

Lemma relay_frame_fields_witness :
  exists frame self',
    @_process_mesh_message shift_cipher
      ([x01; x00; x01; xff; xff; x05; x00; x00] ++ [x98; x99] ++ repeat x30 14)
      (started 2 0x0102 (Some (AppCallback 0))) =
      (Return tt, self',
       CipherDecrypt
         (encrypted_payload
            (mkPacket 0x01 1 0xFFFF 5 0 ([x98; x99] ++ repeat x30 14))) ::
       delivery (started 2 0x0102 (Some (AppCallback 0)))
         (mkPacket 0x01 1 0xFFFF 5 0 ([x98; x99] ++ repeat x30 14))
         [x68; x69] ++
       [StartAdvertising (Some frame); StopAdvertising]) /\
    getitem frame 0 =
      Return (opcode (mkPacket 0x01 1 0xFFFF 5 0 ([x98; x99] ++ repeat x30 14))) /\
    unpack_H (slice frame 1 3) =
      Return (node_id (started 2 0x0102 (Some (AppCallback 0)))) /\
    unpack_H (slice frame 3 5) =
      Return (destination_id
                (mkPacket 0x01 1 0xFFFF 5 0 ([x98; x99] ++ repeat x30 14))) /\
    getitem frame 5 =
      Return (ttl (mkPacket 0x01 1 0xFFFF 5 0 ([x98; x99] ++ repeat x30 14)) - 1) /\
    getitem frame 6 =
      Return (Z.shiftr
                (sequence_number (started 2 0x0102 (Some (AppCallback 0)))) 8) /\
    (exists header, frame = header ++ [x68; x69]) /\
    set_sequence_number
      (sequence_number (started 2 0x0102 (Some (AppCallback 0)))) self' =
      started 2 0x0102 (Some (AppCallback 0)).
Proof.
  apply (relay_frame_fields shift_cipher
           (started 2 0x0102 (Some (AppCallback 0)))
           ([x01; x00; x01; xff; xff; x05; x00; x00] ++
            [x98; x99] ++ repeat x30 14)
           (mkPacket 0x01 1 0xFFFF 5 0 ([x98; x99] ++ repeat x30 14))
           [x68; x69] AdvertiseCallback).
  - unfold packable. simpl. lia.
  - reflexivity.
  - reflexivity.
  - reflexivity.
  - simpl. lia.
  - reflexivity.
Defined.

(** ** Origination: [send_message] *)

Section Origination.
Context `{C : BlockCipher}.

Lemma send_message_rejected (self : BluetoothMeshComm) (destination_id : Z)
  (text : str) :
  MAX_PAYLOAD_SIZE < Z.of_nat (length text) ->
  send_message destination_id text self =
  (Return tt, self, [Print "Message too long"]).
Proof.
  intros Hlen. unfold send_message.
  destruct (Z.gtb_spec (Z.of_nat (length text)) MAX_PAYLOAD_SIZE); [|lia].
  reflexivity.
Qed.

Lemma send_message_accepted (self : BluetoothMeshComm) (destination_id : Z)
  (text : str) (payload ciphertext : bytes) (cb : callback) :
  packable self -> advertise_callback self = Some cb ->
  0 <= destination_id <= 65535 ->
  Z.of_nat (length text) <= MAX_PAYLOAD_SIZE ->
  utf8_encode text = Return payload ->
  encrypt_payload (network_key self) payload = Return ciphertext ->
  send_message destination_id text self =
  (Return tt,
   set_sequence_number ((sequence_number self + 1) mod 0xFFFF) self,
   [CipherEncrypt payload;
    StartAdvertising
      (Some (frame_prefix 0x01 (node_id self) destination_id TTL_DEFAULT
               (sequence_number self) ++ ciphertext));
    StopAdvertising]).
Proof.
  intros Hpack Hcb Hd Hlen Hutf Henc. unfold send_message.
  destruct (Z.gtb_spec (Z.of_nat (length text)) MAX_PAYLOAD_SIZE); [lia|].
  unfold _encrypt_payload, bind, lift, gets, emit.
  rewrite Hutf, Henc.
  rewrite create_mesh_packet_frame by (assumption || (unfold TTL_DEFAULT; lia)).
  rewrite (advertise_packet_ok _ _ cb) by exact Hcb.
  reflexivity.
Qed.

End Origination.

(** C7, as stated, fails: twelve times U+00E9 is 12 characters and 24 UTF-8
    bytes, more than [MAX_PAYLOAD_SIZE] = 23, and [send_message] transmits
    it. *)
Lemma send_message_accepts_24_utf8_bytes :
  ~ (forall payload,
       utf8_encode (repeat 0xE9 12) = Return payload ->
       MAX_PAYLOAD_SIZE < Z.of_nat (length payload) ->
       existsb is_transmission
         (trace (@send_message shift_cipher 0xFFFF (repeat 0xE9 12)
                   (started 1 0 None))) = false).
Proof.
  intros Hclaim.
  specialize (Hclaim (flat_map (fun _ => [xc3; xa9]) (seq 0 12)) eq_refl).
  vm_compute in Hclaim. specialize (Hclaim eq_refl). discriminate.
Qed.

(** C7 (amended). Origination size guard: [send_message] prints
    "Message too long" and transmits nothing when the number of characters
    of the text exceeds [MAX_PAYLOAD_SIZE] = 23; otherwise, for a text that
    UTF-8-encodes, on a started node with an accepted key, it encrypts the
    encoded text and advertises exactly one frame with opcode 0x01, the
    node's id as source, the given destination, ttl 7, the high byte of the
    node's counter at offset 6 and the ciphertext as its last bytes,
    changing nothing in the node but its counter. *)
Theorem send_message_guard (C : BlockCipher) (self : BluetoothMeshComm)
  (destination_id : Z) (text : str) (cb : callback) :
  packable self -> key_ok (network_key self) = true ->
  advertise_callback self = Some cb -> 0 <= destination_id <= 65535 ->
  (MAX_PAYLOAD_SIZE < Z.of_nat (length text) ->
   send_message destination_id text self =
     (Return tt, self, [Print "Message too long"])) /\
  (Z.of_nat (length text) <= MAX_PAYLOAD_SIZE ->
   forall payload, utf8_encode text = Return payload ->
   exists ciphertext frame self',
     encrypt_payload (network_key self) payload = Return ciphertext /\
     send_message destination_id text self =
       (Return tt, self',
        [CipherEncrypt payload; StartAdvertising (Some frame);
         StopAdvertising]) /\
     getitem frame 0 = Return 0x01 /\
     unpack_H (slice frame 1 3) = Return (node_id self) /\
     unpack_H (slice frame 3 5) = Return destination_id /\
     getitem frame 5 = Return TTL_DEFAULT /\
     getitem frame 6 = Return (Z.shiftr (sequence_number self) 8) /\
     (exists header, frame = header ++ ciphertext) /\
     set_sequence_number (sequence_number self) self' = self).
Proof.
  intros Hpack Hk Hcb Hd. split.
  - apply send_message_rejected.
  - intros Hlen payload Hutf.
    pose proof (encrypt_payload_blocks (network_key self) payload Hk) as Henc.
    pose proof Hpack as [Hn Hs].
    destruct (frame_fields 0x01 (node_id self) destination_id TTL_DEFAULT
                (sequence_number self)
                (ecb_blocks (encrypt_block (network_key self))
                   (length payload / 16 + 1)
                   (payload ++ repeat x00 (16 - length payload mod 16))))
      as (F0 & F1 & F3 & F5 & F6); try (unfold TTL_DEFAULT; lia).
    eexists. eexists. eexists.
    split; [exact Henc|].
    split; [eapply (send_message_accepted self destination_id text payload);
            eassumption|].
    repeat (split; [assumption|]).
    split; [eexists; reflexivity|].
    now destruct self.
Qed.

Lemma send_message_guard_witness :
  @send_message shift_cipher 0xFFFF (repeat 0x61 24) (started 1 0 None) =
    (Return tt, started 1 0 None, [Print "Message too long"]) /\
  exists ciphertext frame self',
    @encrypt_payload shift_cipher example_key [x68; x69] = Return ciphertext /\
    @send_message shift_cipher 0xFFFF [0x68; 0x69] (started 1 0 None) =
      (Return tt, self',
       [CipherEncrypt [x68; x69]; StartAdvertising (Some frame);
        StopAdvertising]) /\
    getitem frame 0 = Return 0x01 /\
    unpack_H (slice frame 1 3) = Return 1 /\
    unpack_H (slice frame 3 5) = Return 0xFFFF /\
    getitem frame 5 = Return 7 /\
    getitem frame 6 = Return 0 /\
    (exists header, frame = header ++ ciphertext) /\
    set_sequence_number 0 self' = started 1 0 None.
Proof.
  split.
  - refine (proj1 (send_message_guard shift_cipher (started 1 0 None) 0xFFFF
                     (repeat 0x61 24) AdvertiseCallback _ _ _ _) _).
    + unfold packable. simpl. lia.
    + reflexivity.
    + reflexivity.
    + lia.
    + reflexivity.
  - refine (proj2 (send_message_guard shift_cipher (started 1 0 None) 0xFFFF
                     [0x68; 0x69] AdvertiseCallback _ _ _ _) _ [x68; x69] _).
    + unfold packable. simpl. lia.
    + reflexivity.
    + reflexivity.
    + lia.
    + simpl. unfold MAX_PAYLOAD_SIZE. lia.
    + reflexivity.
Defined.

(** Every character takes at least one byte: a text refused by the guard
    is also longer than [MAX_PAYLOAD_SIZE] once encoded. *)
Lemma utf8_encode_length (text : str) (payload : bytes) :
  utf8_encode text = Return payload -> (length text <= length payload)%nat.
Proof.
  revert payload. induction text as [|c rest IH]; intros payload Hutf.
  - simpl. lia.
  - cbn [utf8_encode] in Hutf.
    destruct (utf8_encode_char c) as [bc|] eqn:Ec; [|discriminate].
    destruct (utf8_encode rest) as [br|] eqn:Er; [|discriminate].
    cbn [obind] in Hutf.
    assert (payload = bc ++ br) as -> by congruence.
    specialize (IH br eq_refl). rewrite length_app. cbn [length].
    assert (1 <= length bc)%nat; [|lia].
    unfold utf8_encode_char in Ec.
    repeat match type of Ec with
           | (if ?b then _ else _) = _ => destruct b
           end;
      try discriminate;
      match type of Ec with Return ?l = _ =>
        assert (bc = l) as -> by congruence end;
      simpl; lia.
Qed.

(** The frame of an originated message cannot be received: behind its
    7-byte prefix come 16q bytes of ciphertext, the receiver takes what
    follows byte 8, 16q - 1 bytes, for the ciphertext, and the cipher
    refuses it. *)
Lemma originated_frame_is_refused (C : BlockCipher) (L : BlockCipherLaws C)
  (sender receiver : BluetoothMeshComm) (destination_id : Z) (text : str)
  (payload : bytes) (cb : callback) :
  packable sender -> key_ok (network_key sender) = true ->
  advertise_callback sender = Some cb -> 0 <= destination_id <= 65535 ->
  Z.of_nat (length text) <= MAX_PAYLOAD_SIZE ->
  utf8_encode text = Return payload ->
  exists frame,
    In (StartAdvertising (Some frame))
       (trace (send_message destination_id text sender)) /\
    result (_process_mesh_message frame receiver) = Raise ValueError.
Proof.
  intros Hpack Hk Hcb Hd Hlen Hutf.
  destruct (encrypt_payload (network_key sender) payload) as [ct|] eqn:Henc;
    [|rewrite encrypt_payload_blocks in Henc by exact Hk; discriminate].
  pose proof (encrypt_payload_length _ _ _ Hk Henc) as Hct.
  destruct (padded_length (length payload)) as (q & Hq & Hq0 & _).
  rewrite Hq in Hct.
  rewrite (send_message_accepted sender destination_id text payload ct cb)
    by assumption.
  eexists. split; [cbn [trace snd In]; auto|].
  destruct ct as [|c0 ct]; [cbn [length] in Hct; lia|].
  pose proof Hpack as [Hn Hs].
  unfold frame_prefix. cbn [app].
  erewrite process_misaligned_raises; [reflexivity| | |].
  - apply parse_mesh_packet_cons.
  - cbn [ttl]. unfold TTL_DEFAULT. rewrite int_of_byte_of_int; lia.
  - cbn [encrypted_payload]. cbn [length] in Hct.
    replace (length ct) with (15 + (q - 1) * 16)%nat by lia.
    rewrite Nat.Div0.mod_add. discriminate.
Qed.

(** * Further properties of the node *)

(** ** Building a packet: every outcome *)

Lemma packable_dec (self : BluetoothMeshComm) : {packable self} + {~ packable self}.
Proof.
  unfold packable.
  destruct (Z_le_dec 0 (node_id self)), (Z_le_dec (node_id self) 65535),
    (Z_le_dec 0 (sequence_number self)),
    (Z_le_dec (sequence_number self) 65535);
    (left; lia) || (right; lia).
Qed.

Lemma pack_H_fails (v : Z) : ~ 0 <= v <= 65535 -> pack_H v = Raise StructError.
Proof.
  intros Hv. unfold pack_H.
  destruct (Z.leb_spec 0 v), (Z.leb_spec v 65535); try lia; reflexivity.
Qed.

Lemma pack_B_fails (v : Z) : ~ 0 <= v <= 255 -> pack_B v = Raise StructError.
Proof.
  intros Hv. unfold pack_B.
  destruct (Z.leb_spec 0 v), (Z.leb_spec v 255); try lia; reflexivity.
Qed.

Lemma pack_HHBH_fails (a b c d : Z) :
  ~ (0 <= a <= 65535 /\ 0 <= b <= 65535 /\ 0 <= c <= 255 /\ 0 <= d <= 65535) ->
  pack_HHBH a b c d = Raise StructError.
Proof.
  intros Hbad. unfold pack_HHBH.
  destruct (Z_le_dec 0 a), (Z_le_dec a 65535);
    try (rewrite (pack_H_fails a) by lia; reflexivity).
  rewrite (pack_H_ok a) by lia. cbn [obind].
  destruct (Z_le_dec 0 b), (Z_le_dec b 65535);
    try (rewrite (pack_H_fails b) by lia; reflexivity).
  rewrite (pack_H_ok b) by lia. cbn [obind].
  destruct (Z_le_dec 0 c), (Z_le_dec c 255);
    try (rewrite (pack_B_fails c) by lia; reflexivity).
  rewrite (pack_B_ok c) by lia. cbn [obind].
  rewrite (pack_H_fails d) by lia. reflexivity.
Qed.


Lemma create_mesh_packet_bad_field (self : BluetoothMeshComm)
  (destination_id opcode : Z) (payload : bytes) (ttl : Z) :
  0 <= opcode <= 255 ->
  ~ (packable self /\ 0 <= destination_id <= 65535 /\ 0 <= ttl <= 255) ->
  _create_mesh_packet destination_id opcode payload ttl self =
  (Raise StructError, self, []).
Proof.
  intros Ho Hbad.
  unfold _create_mesh_packet, bind, lift, gets, setitem, pack_into_HHBH,
    bytearray.
  cbn [Nat.add repeat length Nat.ltb Nat.leb].
  destruct (Z.leb_spec 0 opcode), (Z.ltb_spec opcode 256); try lia.
  rewrite pack_HHBH_fails by (unfold packable in Hbad; lia).
  reflexivity.
Qed.

(** ** Receiving: every outcome *)

Section ReceiveOutcomes.
Context `{C : BlockCipher}.

(** The cipher step fails with [ValueError] only, and exactly when the key
    is refused or the data is not a whole number of blocks. *)
Lemma decrypt_payload_cases (key data : bytes) :
  (key_ok key = true /\ (length data mod 16 = 0)%nat /\
   decrypt_payload key data =
     Return (rstrip_zero
               (ecb_blocks (decrypt_block key) (length data / 16) data))) \/
  ((key_ok key = false \/ (length data mod 16 <> 0)%nat) /\
   decrypt_payload key data = Raise ValueError).
Proof.
  destruct (key_ok key) eqn:Hk.
  - destruct (Nat.eq_dec (length data mod 16) 0) as [Hlen|Hlen].
    + left. repeat split; try assumption.
      now apply decrypt_payload_aligned.
    + right. split; [now right|now apply decrypt_payload_misaligned].
  - right. split; [now left|].
    unfold decrypt_payload, Cipher. now rewrite Hk.
Qed.

Lemma process_relay_unpackable (self : BluetoothMeshComm) (scan_record : bytes)
  (p : mesh_packet) (payload : bytes) :
  ~ packable self ->
  parse_mesh_packet scan_record = Return (Some p) -> 1 < ttl p ->
  decrypt_payload (network_key self) (encrypted_payload p) = Return payload ->
  running self = true ->
  _process_mesh_message scan_record self =
  (Raise StructError, self,
   CipherDecrypt (encrypted_payload p) :: delivery self p payload).
Proof.
  intros Hpack Hparse Httl Hdec Hrun.
  destruct (parse_mesh_packet_ranges _ _ Hparse) as (Ho & _ & Hd & Ht & _).
  unfold _process_mesh_message, _decrypt_payload,
    bind, lift, gets, emit, ret, delivery.
  rewrite Hparse. destruct (Z.leb_spec (ttl p) 0); [lia|].
  rewrite Hdec.
  assert (Hcond : (ttl p >? 1) && running self = true).
  { rewrite Hrun, andb_true_r. apply Z.gtb_lt. lia. }
  destruct (opcode p =? 1); [destruct (message_callback self)|];
    cbn [app]; rewrite Hcond;
    rewrite create_mesh_packet_bad_field by tauto; reflexivity.
Qed.

Lemma process_relay_no_callback (self : BluetoothMeshComm) (scan_record : bytes)
  (p : mesh_packet) (payload : bytes) :
  packable self -> advertise_callback self = None ->
  parse_mesh_packet scan_record = Return (Some p) -> 1 < ttl p ->
  decrypt_payload (network_key self) (encrypted_payload p) = Return payload ->
  running self = true ->
  _process_mesh_message scan_record self =
  (Raise AttributeError,
   set_sequence_number ((sequence_number self + 1) mod 0xFFFF) self,
   CipherDecrypt (encrypted_payload p) :: delivery self p payload).
Proof.
  intros Hpack Hcb Hparse Httl Hdec Hrun.
  destruct (parse_mesh_packet_ranges _ _ Hparse) as (Ho & _ & Hd & Ht & _).
  unfold _process_mesh_message, _decrypt_payload,
    bind, lift, gets, emit, ret, delivery.
  rewrite Hparse. destruct (Z.leb_spec (ttl p) 0); [lia|].
  rewrite Hdec.
  assert (Hcond : (ttl p >? 1) && running self = true).
  { rewrite Hrun, andb_true_r. apply Z.gtb_lt. lia. }
  destruct (opcode p =? 1); [destruct (message_callback self)|];
    cbn [app]; rewrite Hcond;
    rewrite create_mesh_packet_frame by (assumption || lia);
    rewrite advertise_packet_unset by exact Hcb;
    rewrite ?app_nil_r; reflexivity.
Qed.

(** Every run of [_process_mesh_message] is one of the seven paths. *)
Lemma receive_outcome_complete (self : BluetoothMeshComm) (scan_record : bytes) :
  receive_outcome self scan_record (_process_mesh_message scan_record self).
Proof.
  destruct (Nat.ltb_spec (length scan_record) 8) as [Hshort|Hlong].
  { rewrite process_short by exact Hshort. now constructor. }
  destruct (long_buffer scan_record Hlong)
    as (b0 & b1 & b2 & b3 & b4 & b5 & b6 & b7 & rest & ->).
  assert (exists p,
             parse_mesh_packet
               (b0 :: b1 :: b2 :: b3 :: b4 :: b5 :: b6 :: b7 :: rest) =
             Return (Some p)) as [p Hparse]
    by (eexists; apply parse_mesh_packet_cons).
  destruct (parse_mesh_packet_ranges _ _ Hparse) as (_ & _ & _ & Ht & _).
  destruct (Z.eq_dec (ttl p) 0) as [H0|H0].
  { rewrite (process_exhausted self _ p) by assumption.
    now apply (Receive_exhausted _ _ p). }
  assert (Hpos : 0 < ttl p) by lia.
  destruct (decrypt_payload_cases (network_key self) (encrypted_payload p))
    as [(_ & _ & Hdec)|(_ & Hdec)].
  2:{ rewrite (process_decrypt_error self _ p ValueError Hparse Hpos Hdec).
      now apply (Receive_refused _ _ p). }
  destruct (Z.eq_dec (ttl p) 1) as [H1|H1].
  { rewrite (process_deliver_only self _ p _ Hparse Hpos Hdec (or_introl H1)).
    apply (Receive_delivered _ _ p); auto. }
  destruct (running self) eqn:Hrun.
  2:{ rewrite (process_deliver_only self _ p _ Hparse Hpos Hdec (or_intror Hrun)).
      apply (Receive_delivered _ _ p); auto. }
  assert (Hgt : 1 < ttl p) by lia.
  destruct (packable_dec self) as [Hpack|Hpack].
  2:{ rewrite (process_relay_unpackable self _ p _ Hpack Hparse Hgt Hdec Hrun).
      now apply (Receive_unpackable _ _ p). }
  destruct (advertise_callback self) as [cb|] eqn:Hcb.
  - rewrite (process_relay self _ p _ cb Hpack Hcb Hparse Hgt Hdec Hrun).
    now apply (Receive_relayed _ _ p _ cb).
  - rewrite (process_relay_no_callback self _ p _ Hpack Hcb Hparse Hgt Hdec Hrun).
    now apply (Receive_no_advertise_callback _ _ p).
Qed.

End ReceiveOutcomes.

(** ** Receiving: what follows from the outcomes *)

Lemma delivery_cases (self : BluetoothMeshComm) (p : mesh_packet)
  (payload : bytes) (ev : event) :
  In ev (delivery self p payload) ->
  ev = CallMessageCallback (source_id p) payload /\ opcode p = 0x01 /\
  exists h, message_callback self = Some h.
Proof.
  unfold delivery. destruct (Z.eqb_spec (opcode p) 1) as [Ho|Ho]; [|intros []].
  destruct (message_callback self) as [h|]; [|intros []].
  intros [<-|[]]. eauto.
Qed.

(** X1. A node that is not running never transmits: whatever it receives,
    no frame is handed to the radio and no attribute changes (the sequence
    counter included). *)
Theorem stopped_node_never_relays (C : BlockCipher) (self : BluetoothMeshComm)
  (scan_record : bytes) :
  running self = false ->
  final (_process_mesh_message scan_record self) = self /\
  existsb is_transmission (trace (_process_mesh_message scan_record self)) =
    false.
Proof.
  intros Hrun.
  destruct (receive_outcome_complete self scan_record);
    unfold final, trace; cbn [fst snd existsb is_transmission];
    rewrite ?delivery_no_transmission; try (split; reflexivity); congruence.
Qed.

Lemma stopped_node_never_relays_witness :
  final (@_process_mesh_message shift_cipher
           ([x01; x00; x01; xff; xff; x05; x00; x00] ++
            [x98; x99] ++ repeat x30 14)
           (mkNode 2 example_key false (Some (AppCallback 0)) 7
                   (Some ScanCallback) (Some AdvertiseCallback))) =
    mkNode 2 example_key false (Some (AppCallback 0)) 7
           (Some ScanCallback) (Some AdvertiseCallback) /\
  existsb is_transmission
    (trace (@_process_mesh_message shift_cipher
              ([x01; x00; x01; xff; xff; x05; x00; x00] ++
               [x98; x99] ++ repeat x30 14)
              (mkNode 2 example_key false (Some (AppCallback 0)) 7
                      (Some ScanCallback) (Some AdvertiseCallback)))) = false.
Proof.
  apply (stopped_node_never_relays shift_cipher
           (mkNode 2 example_key false (Some (AppCallback 0)) 7
                   (Some ScanCallback) (Some AdvertiseCallback))).
  reflexivity.
Defined.

(** X2. Receiving changes nothing in the node but, when a packet is
    relayed, the sequence counter: after [_process_mesh_message], whether
    it returned or raised, the node is either unchanged or a running,
    packable node whose counter advanced by one modulo 0xFFFF. *)
Theorem receive_changes_only_the_counter (C : BlockCipher)
  (self : BluetoothMeshComm) (scan_record : bytes) :
  final (_process_mesh_message scan_record self) = self \/
  (running self = true /\ packable self /\
   final (_process_mesh_message scan_record self) =
     set_sequence_number ((sequence_number self + 1) mod 0xFFFF) self).
Proof.
  destruct (receive_outcome_complete self scan_record);
    unfold final; cbn [fst snd]; auto.
Qed.

(** X3. The application callback is only ever called for a text packet:
    an event [CallMessageCallback src payload] of the receive path means
    that the buffer parsed to a packet with opcode 0x01 and ttl > 0 from
    [src], that a callback is registered, and that [payload] is the
    decryption of the packet's payload. *)
Theorem callback_only_for_text_packets (C : BlockCipher)
  (self : BluetoothMeshComm) (scan_record : bytes) (src : Z) (payload : bytes) :
  In (CallMessageCallback src payload)
     (trace (_process_mesh_message scan_record self)) ->
  exists p h,
    parse_mesh_packet scan_record = Return (Some p) /\
    opcode p = 0x01 /\ 0 < ttl p /\ src = source_id p /\
    message_callback self = Some h /\
    decrypt_payload (network_key self) (encrypted_payload p) = Return payload.
Proof.
  destruct (receive_outcome_complete self scan_record) as
    [Hs|p Hp Ht|p Hp Ht Hd|p pl Hp Ht Hd Hr|p pl Hp Ht Hd Hr Hk
    |p pl Hp Ht Hd Hr Hk Hc|p pl cb Hp Ht Hd Hr Hk Hc];
    unfold trace; cbn [snd]; intros Hin.
  1,2: destruct Hin.
  1: destruct Hin as [Hin|[]]; discriminate.
  all: destruct Hin as [Hin|Hin]; [discriminate|].
  4: apply in_app_or in Hin;
     destruct Hin as [Hin|[Hin|[Hin|[]]]]; try discriminate.
  all: destruct (delivery_cases _ _ _ _ Hin) as (Hev & Ho & h & Hh);
    injection Hev as -> ->; exists p, h; repeat split; auto; lia.
Qed.

Lemma callback_only_for_text_packets_witness :
  exists p h,
    parse_mesh_packet
      ([x01; x00; x01; xff; xff; x01; x00; x00] ++ [x98; x99] ++ repeat x30 14) =
      Return (Some p) /\
    opcode p = 0x01 /\ 0 < ttl p /\ 1 = source_id p /\
    message_callback (started 2 0 (Some (AppCallback 0))) = Some h /\
    @decrypt_payload shift_cipher
      (network_key (started 2 0 (Some (AppCallback 0))))
      (encrypted_payload p) = Return [x68; x69].
Proof.
  apply (callback_only_for_text_packets shift_cipher
           (started 2 0 (Some (AppCallback 0)))
           ([x01; x00; x01; xff; xff; x01; x00; x00] ++
            [x98; x99] ++ repeat x30 14)
           1 [x68; x69]).
  vm_compute. auto.
Defined.

(** X4. No destination filtering: a text packet (opcode 0x01) with ttl > 0
    whose payload decrypts is handed to the registered callback with its
    source id and plaintext, whatever its destination field, whether or
    not the node is running, and even when the relay that follows fails. *)
Theorem text_packet_is_always_delivered (C : BlockCipher)
  (self : BluetoothMeshComm) (scan_record : bytes) (p : mesh_packet)
  (payload : bytes) (h : callback) :
  parse_mesh_packet scan_record = Return (Some p) ->
  opcode p = 0x01 -> 0 < ttl p ->
  message_callback self = Some h ->
  decrypt_payload (network_key self) (encrypted_payload p) = Return payload ->
  exists rest,
    trace (_process_mesh_message scan_record self) =
    CipherDecrypt (encrypted_payload p) ::
    CallMessageCallback (source_id p) payload :: rest /\
    existsb is_delivery rest = false.
Proof.
  intros Hparse Hop Httl Hcb Hdec.
  assert (Hdel : delivery self p payload =
                 [CallMessageCallback (source_id p) payload])
    by (unfold delivery; now rewrite Hop, Hcb).
  destruct (receive_outcome_complete self scan_record) as
    [Hs|q Hp Ht|q Hp Ht Hd|q pl Hp Ht Hd Hr|q pl Hp Ht Hd Hr Hk
    |q pl Hp Ht Hd Hr Hk Hc|q pl cb Hp Ht Hd Hr Hk Hc].
  1: rewrite parse_mesh_packet_short in Hparse by exact Hs; discriminate.
  all: assert (q = p) as -> by congruence.
  1: lia.
  1: congruence.
  all: assert (pl = payload) as -> by congruence;
    unfold trace; cbn [snd]; rewrite Hdel; cbn [app];
    eexists; split; reflexivity.
Qed.

Lemma text_packet_is_always_delivered_witness :
  exists rest,
    trace (@_process_mesh_message shift_cipher
             ([x01; x00; x09; x12; x34; x01; x00; x00] ++
              [x98; x99] ++ repeat x30 14)
             (mkNode 2 example_key false (Some (AppCallback 0)) 0 None None)) =
    CipherDecrypt
      (encrypted_payload
         (mkPacket 0x01 9 0x1234 1 0 ([x98; x99] ++ repeat x30 14))) ::
    CallMessageCallback
      (source_id (mkPacket 0x01 9 0x1234 1 0 ([x98; x99] ++ repeat x30 14)))
      [x68; x69] :: rest /\
    existsb is_delivery rest = false.
Proof.
  apply (text_packet_is_always_delivered shift_cipher
           (mkNode 2 example_key false (Some (AppCallback 0)) 0 None None)
           ([x01; x00; x09; x12; x34; x01; x00; x00] ++
            [x98; x99] ++ repeat x30 14)
           (mkPacket 0x01 9 0x1234 1 0 ([x98; x99] ++ repeat x30 14))
           [x68; x69] (AppCallback 0)).
  - reflexivity.
  - reflexivity.
  - reflexivity.
  - reflexivity.
  - reflexivity.
Defined.

(** X5. On a packable node whose advertise callback exists, the receive
    path either returns or raises [ValueError], and it raises exactly when
    the buffer parses to a packet with ttl > 0 and the cipher step fails:
    the key is refused or the payload is not a whole number of 16-byte
    blocks. *)
Theorem receive_raises_only_from_the_cipher (C : BlockCipher)
  (self : BluetoothMeshComm) (scan_record : bytes) (cb : callback) :
  packable self -> advertise_callback self = Some cb ->
  (result (_process_mesh_message scan_record self) = Return tt \/
   result (_process_mesh_message scan_record self) = Raise ValueError) /\
  (result (_process_mesh_message scan_record self) = Raise ValueError <->
   exists p,
     parse_mesh_packet scan_record = Return (Some p) /\ 0 < ttl p /\
     (key_ok (network_key self) = false \/
      (length (encrypted_payload p) mod 16 <> 0)%nat)).
Proof.
  intros Hpack Hcb.
  destruct (receive_outcome_complete self scan_record) as
    [Hs|p Hp Ht|p Hp Ht Hd|p pl Hp Ht Hd Hr|p pl Hp Ht Hd Hr Hk
    |p pl Hp Ht Hd Hr Hk Hc|p pl cb' Hp Ht Hd Hr Hk Hc];
    unfold result; cbn [fst]; try contradiction; try congruence.
  - split; [now left|]. split; [discriminate|].
    intros (p & Hp & _). rewrite parse_mesh_packet_short in Hp by exact Hs.
    discriminate.
  - split; [now left|]. split; [discriminate|].
    intros (q & Hq & Hpos & _). assert (q = p) by congruence. subst q. lia.
  - split; [now right|]. split; [|reflexivity]. intros _.
    exists p. repeat split; try assumption.
    destruct (decrypt_payload_cases (network_key self) (encrypted_payload p))
      as [(_ & _ & Hok)|(Hwhy & _)]; [congruence|exact Hwhy].
  - split; [now left|]. split; [discriminate|].
    intros (q & Hq & _ & Hwhy). assert (q = p) by congruence. subst q.
    destruct (decrypt_payload_cases (network_key self) (encrypted_payload p))
      as [(Hkey & Hlen & _)|(_ & Hbad)]; [|congruence].
    destruct Hwhy; congruence.
  - split; [now left|]. split; [discriminate|].
    intros (q & Hq & _ & Hwhy). assert (q = p) by congruence. subst q.
    destruct (decrypt_payload_cases (network_key self) (encrypted_payload p))
      as [(Hkey & Hlen & _)|(_ & Hbad)]; [|congruence].
    destruct Hwhy; congruence.
Qed.

Lemma receive_raises_only_from_the_cipher_witness :
  (result (@_process_mesh_message shift_cipher
             [x01; x00; x01; xff; xff; x03; x00; x00; x41]
             (started 2 0 None)) = Return tt \/
   result (@_process_mesh_message shift_cipher
             [x01; x00; x01; xff; xff; x03; x00; x00; x41]
             (started 2 0 None)) = Raise ValueError) /\
  (result (@_process_mesh_message shift_cipher
             [x01; x00; x01; xff; xff; x03; x00; x00; x41]
             (started 2 0 None)) = Raise ValueError <->
   exists p,
     parse_mesh_packet [x01; x00; x01; xff; xff; x03; x00; x00; x41] =
       Return (Some p) /\ 0 < ttl p /\
     (@key_ok shift_cipher (network_key (started 2 0 None)) = false \/
      (length (encrypted_payload p) mod 16 <> 0)%nat)).
Proof.
  apply (receive_raises_only_from_the_cipher shift_cipher (started 2 0 None)
           [x01; x00; x01; xff; xff; x03; x00; x00; x41] AdvertiseCallback).
  - unfold packable. simpl. lia.
  - reflexivity.
Defined.

(** X6. Relay decision and its cost: on a running, packable node with an
    advertise callback, a packet with ttl > 0 that parses and decrypts is
    handed to the radio once if its ttl exceeds 1 and not at all if its ttl
    is 1; the node's sequence counter advances by one modulo 0xFFFF in the
    first case and stays in the second.  Relaying consumes a sequence number
    of the relaying node. *)
Theorem relay_consumes_a_sequence_number (C : BlockCipher)
  (self : BluetoothMeshComm) (scan_record : bytes) (p : mesh_packet)
  (payload : bytes) (cb : callback) :
  packable self -> advertise_callback self = Some cb -> running self = true ->
  parse_mesh_packet scan_record = Return (Some p) -> 0 < ttl p ->
  decrypt_payload (network_key self) (encrypted_payload p) = Return payload ->
  result (_process_mesh_message scan_record self) = Return tt /\
  length (filter is_transmission
            (trace (_process_mesh_message scan_record self))) =
    (if ttl p >? 1 then 1 else 0)%nat /\
  sequence_number (final (_process_mesh_message scan_record self)) =
    (if ttl p >? 1 then (sequence_number self + 1) mod 0xFFFF
     else sequence_number self).
Proof.
  intros Hpack Hcb Hrun Hparse Httl Hdec.
  assert (Hnone : filter is_transmission (delivery self p payload) = []).
  { unfold delivery.
    destruct (opcode p =? 1); [destruct (message_callback self)|];
      reflexivity. }
  destruct (Z.gtb_spec (ttl p) 1) as [Hhop|Hhop].
  - rewrite (process_relay self scan_record p payload cb) by assumption.
    unfold result, trace, final. cbn [fst snd filter is_transmission].
    rewrite filter_app, Hnone. repeat split.
  - rewrite (process_deliver_only self scan_record p payload)
      by (auto; left; lia).
    unfold result, trace, final. cbn [fst snd filter is_transmission].
    rewrite Hnone. repeat split.
Qed.

Lemma relay_consumes_a_sequence_number_witness :
  result (@_process_mesh_message shift_cipher
            ([x01; x00; x01; xff; xff; x05; x00; x00] ++
             [x98; x99] ++ repeat x30 14)
            (started 2 65534 None)) = Return tt /\
  length (filter is_transmission
            (trace (@_process_mesh_message shift_cipher
                      ([x01; x00; x01; xff; xff; x05; x00; x00] ++
                       [x98; x99] ++ repeat x30 14)
                      (started 2 65534 None)))) = 1%nat /\
  sequence_number
    (final (@_process_mesh_message shift_cipher
              ([x01; x00; x01; xff; xff; x05; x00; x00] ++
               [x98; x99] ++ repeat x30 14)
              (started 2 65534 None))) = 0.
Proof.
  apply (relay_consumes_a_sequence_number shift_cipher (started 2 65534 None)
           ([x01; x00; x01; xff; xff; x05; x00; x00] ++
            [x98; x99] ++ repeat x30 14)
           (mkPacket 0x01 1 0xFFFF 5 0 ([x98; x99] ++ repeat x30 14))
           [x68; x69] AdvertiseCallback).
  - unfold packable. simpl. lia.
  - reflexivity.
  - reflexivity.
  - reflexivity.
  - reflexivity.
  - reflexivity.
Defined.

(** ** Frames on their way to the next node *)

Lemma rstrip_zero_split (b : bytes) :
  exists n, b = rstrip_zero b ++ repeat x00 n.
Proof.
  induction b as [|x t [n IH]]; [now exists 0%nat|].
  cbn [rstrip_zero]. destruct (rstrip_zero t) as [|y r].
  - cbn [app] in IH. destruct (Byte.eqb x x00) eqn:E.
    + apply Byte.byte_dec_bl in E. subst x. exists (S n). now rewrite IH.
    + exists n. now rewrite IH at 1.
  - exists n. now rewrite IH at 1.
Qed.

Lemma rstrip_zero_length (b : bytes) :
  (length (rstrip_zero b) <= length b)%nat.
Proof.
  destruct (rstrip_zero_split b) as [n Hn].
  rewrite Hn at 2. rewrite length_app. lia.
Qed.

Lemma rstrip_zero_last (b : bytes) :
  rstrip_zero b = [] \/ last (rstrip_zero b) x00 <> x00.
Proof.
  induction b as [|x t IH]; [now left|].
  cbn [rstrip_zero]. destruct (rstrip_zero t) as [|y r] eqn:E.
  - destruct (Byte.eqb x x00) eqn:Ex; [now left|right].
    cbn [last]. now apply Byte.eqb_false.
  - right. destruct IH as [IH|IH]; [discriminate|exact IH].
Qed.

Section NextHop.
Context `{C : BlockCipher} {L : BlockCipherLaws C}.

(** A decrypted payload is never longer than the ciphertext. *)
Lemma decrypt_payload_length (key data plaintext : bytes) :
  decrypt_payload key data = Return plaintext ->
  (length plaintext <= length data)%nat.
Proof.
  intros Hdec.
  destruct (decrypt_payload_cases key data)
    as [(Hk & Hlen & Heq)|(_ & Hbad)]; [|congruence].
  assert (plaintext =
          rstrip_zero (ecb_blocks (decrypt_block key) (length data / 16) data))
    as -> by congruence.
  etransitivity; [apply rstrip_zero_length|].
  pose proof (Nat.div_mod_eq (length data) 16) as Hdiv.
  rewrite (ecb_blocks_length (decrypt_block key)).
  - lia.
  - intros b Hb. now apply decrypt_block_length.
  - lia.
Qed.

Lemma Forall_delivery (P : event -> Prop) (self : BluetoothMeshComm)
  (p : mesh_packet) (payload : bytes) :
  P (CallMessageCallback (source_id p) payload) ->
  Forall P (delivery self p payload).
Proof.
  intros HP. unfold delivery.
  destruct (opcode p =? 1); [destruct (message_callback self)|];
    repeat constructor; exact HP.
Qed.

(** Whatever the receive path hands to the callback is at most as long as
    the ciphertext of the packet. *)
Lemma delivered_payload_bound (self : BluetoothMeshComm) (scan_record : bytes)
  (p : mesh_packet) :
  parse_mesh_packet scan_record = Return (Some p) ->
  Forall (fun ev =>
            match ev with
            | CallMessageCallback _ delivered =>
                (length delivered <= length (encrypted_payload p))%nat
            | _ => True
            end)
         (trace (_process_mesh_message scan_record self)).
Proof.
  intros Hparse.
  destruct (receive_outcome_complete self scan_record) as
    [Hs|q Hp Ht|q Hp Ht Hd|q pl Hp Ht Hd Hr|q pl Hp Ht Hd Hr Hk
    |q pl Hp Ht Hd Hr Hk Hc|q pl cb Hp Ht Hd Hr Hk Hc];
    unfold trace; cbn [snd].
  - constructor.
  - constructor.
  - constructor; [exact I|constructor].
  - assert (q = p) as -> by congruence.
    constructor; [exact I|]. apply Forall_delivery.
    now apply (decrypt_payload_length (network_key self)).
  - assert (q = p) as -> by congruence.
    constructor; [exact I|]. apply Forall_delivery.
    now apply (decrypt_payload_length (network_key self)).
  - assert (q = p) as -> by congruence.
    constructor; [exact I|]. apply Forall_delivery.
    now apply (decrypt_payload_length (network_key self)).
  - assert (q = p) as -> by congruence.
    constructor; [exact I|]. apply Forall_app. split.
    + apply Forall_delivery.
      now apply (decrypt_payload_length (network_key self)).
    + repeat constructor.
Qed.

(** X7. A frame originated by [send_message] cannot be received: the
    ciphertext starts at byte 7 of the frame, the receiver decrypts what
    follows byte 8 -- one byte short of a whole number of blocks -- and
    [_process_mesh_message] raises [ValueError] on every node, delivering
    and relaying nothing. *)
Theorem own_frames_cannot_be_received
  (sender receiver : BluetoothMeshComm) (destination_id : Z) (text : str)
  (payload : bytes) (cb : callback) :
  packable sender -> key_ok (network_key sender) = true ->
  advertise_callback sender = Some cb -> 0 <= destination_id <= 65535 ->
  Z.of_nat (length text) <= MAX_PAYLOAD_SIZE ->
  utf8_encode text = Return payload ->
  exists frame,
    filter is_transmission (trace (send_message destination_id text sender)) =
      [StartAdvertising (Some frame)] /\
    (length (slice_from frame 8) mod 16 = 15)%nat /\
    _process_mesh_message frame receiver =
      (Raise ValueError, receiver, [CipherDecrypt (slice_from frame 8)]).
Proof.
  intros Hpack Hk Hcb Hd Hlen Hutf.
  destruct (encrypt_payload (network_key sender) payload) as [ct|] eqn:Henc;
    [|rewrite encrypt_payload_blocks in Henc by exact Hk; discriminate].
  pose proof (encrypt_payload_length _ _ _ Hk Henc) as Hct.
  destruct (padded_length (length payload)) as (q & Hq & Hq0 & _).
  rewrite Hq in Hct.
  rewrite (send_message_accepted sender destination_id text payload ct cb)
    by assumption.
  eexists. split; [reflexivity|].
  destruct ct as [|c0 ct]; [cbn [length] in Hct; lia|].
  pose proof Hpack as [Hn Hs].
  unfold frame_prefix, slice_from. cbn [app skipn].
  assert (Hmod : (length ct mod 16 = 15)%nat).
  { cbn [length] in Hct.
    replace (length ct) with (15 + (q - 1) * 16)%nat by lia.
    now rewrite Nat.Div0.mod_add. }
  split; [exact Hmod|].
  erewrite process_misaligned_raises; cycle 1.
  - apply parse_mesh_packet_cons.
  - cbn [ttl]. unfold TTL_DEFAULT. rewrite int_of_byte_of_int; lia.
  - cbn [encrypted_payload]. rewrite Hmod. discriminate.
  - reflexivity.
Qed.

(** X8. A relayed frame does not carry the text to the next node.  The
    relay puts the decrypted payload behind the 7-byte prefix; the next
    node drops the frame silently when that payload is empty (7 bytes),
    and otherwise treats the payload without its first byte as ciphertext:
    it raises [ValueError] unless that rest is a whole number of blocks,
    and whatever it may deliver is shorter than the relayed payload. *)
Theorem relayed_frame_at_the_next_hop
  (self receiver : BluetoothMeshComm) (scan_record : bytes) (p : mesh_packet)
  (payload : bytes) (cb : callback) :
  packable self -> advertise_callback self = Some cb -> running self = true ->
  parse_mesh_packet scan_record = Return (Some p) -> 1 < ttl p ->
  decrypt_payload (network_key self) (encrypted_payload p) = Return payload ->
  exists frame,
    filter is_transmission (trace (_process_mesh_message scan_record self)) =
      [StartAdvertising (Some frame)] /\
    match payload with
    | [] => _process_mesh_message frame receiver = (Return tt, receiver, [])
    | _ :: rest =>
        (length rest mod 16 = 0)%nat \/
        result (_process_mesh_message frame receiver) = Raise ValueError
    end /\
    Forall (fun ev =>
              match ev with
              | CallMessageCallback _ delivered =>
                  (length delivered < length payload)%nat
              | _ => True
              end)
           (trace (_process_mesh_message frame receiver)).
Proof.
  intros Hpack Hcb Hrun Hparse Httl Hdec.
  destruct (parse_mesh_packet_ranges _ _ Hparse) as (Ho & _ & Hd & Ht & _).
  pose proof Hpack as [Hn Hs].
  rewrite (process_relay self scan_record p payload cb) by assumption.
  assert (Hnone : filter is_transmission (delivery self p payload) = []).
  { unfold delivery.
    destruct (opcode p =? 1); [destruct (message_callback self)|];
      reflexivity. }
  eexists. split.
  { unfold trace. cbn [snd filter is_transmission].
    rewrite filter_app, Hnone. reflexivity. }
  destruct payload as [|p0 rest].
  - assert (Hshort : (length (frame_prefix (opcode p) (node_id self)
                                (destination_id p) (ttl p - 1)
                                (sequence_number self) ++ []) < 8)%nat)
      by (cbn [frame_prefix app length]; lia).
    split; [now apply process_short|].
    rewrite process_short by exact Hshort. constructor.
  - unfold frame_prefix. cbn [app].
    pose proof (parse_mesh_packet_cons (byte_of_int (opcode p))
                  (byte_of_int (Z.shiftr (node_id self) 8))
                  (byte_of_int (Z.land (node_id self) 255))
                  (byte_of_int (Z.shiftr (destination_id p) 8))
                  (byte_of_int (Z.land (destination_id p) 255))
                  (byte_of_int (ttl p - 1))
                  (byte_of_int (Z.shiftr (sequence_number self) 8))
                  p0 rest) as Hnext.
    set (frame := byte_of_int (opcode p) :: _) in *.
    set (q := mkPacket _ _ _ _ _ _) in Hnext.
    assert (Hq : encrypted_payload q = rest) by reflexivity.
    assert (Hqt : 0 < ttl q).
    { subst q. cbn [ttl]. rewrite int_of_byte_of_int; lia. }
    split.
    + destruct (Nat.eq_dec (length rest mod 16) 0) as [Hmod|Hmod];
        [now left|right].
      rewrite (process_misaligned_raises C receiver frame q Hnext Hqt);
        [reflexivity|].
      now rewrite Hq.
    + eapply Forall_impl; [|apply (delivered_payload_bound receiver frame q Hnext)].
      intros [ | | | | | | | |src delivered]; try (intros; exact I).
      rewrite Hq. cbn [length]. lia.
Qed.

End NextHop.

Lemma own_frames_cannot_be_received_witness :
  exists frame,
    filter is_transmission
      (trace (@send_message shift_cipher 0xFFFF [0x68; 0x69] (started 1 0 None))) =
      [StartAdvertising (Some frame)] /\
    (length (slice_from frame 8) mod 16 = 15)%nat /\
    @_process_mesh_message shift_cipher frame
      (started 2 0 (Some (AppCallback 0))) =
      (Raise ValueError, started 2 0 (Some (AppCallback 0)),
       [CipherDecrypt (slice_from frame 8)]).
Proof.
  apply (@own_frames_cannot_be_received shift_cipher shift_cipher_laws
           (started 1 0 None) (started 2 0 (Some (AppCallback 0)))
           0xFFFF [0x68; 0x69] [x68; x69] AdvertiseCallback).
  - unfold packable. simpl. lia.
  - reflexivity.
  - reflexivity.
  - lia.
  - simpl. unfold MAX_PAYLOAD_SIZE. lia.
  - reflexivity.
Defined.

Lemma relayed_frame_at_the_next_hop_witness :
  exists frame,
    filter is_transmission
      (trace (@_process_mesh_message shift_cipher
                ([x01; x00; x01; xff; xff; x05; x00; x00] ++
                 [x98; x99] ++ repeat x30 14)
                (started 2 0x0102 None))) =
      [StartAdvertising (Some frame)] /\
    ((length [x69] mod 16 = 0)%nat \/
     result (@_process_mesh_message shift_cipher frame
               (started 3 0 (Some (AppCallback 0)))) = Raise ValueError) /\
    Forall (fun ev =>
              match ev with
              | CallMessageCallback _ delivered =>
                  (length delivered < length [x68; x69])%nat
              | _ => True
              end)
           (trace (@_process_mesh_message shift_cipher frame
                     (started 3 0 (Some (AppCallback 0))))).
Proof.
  apply (@relayed_frame_at_the_next_hop shift_cipher shift_cipher_laws
           (started 2 0x0102 None) (started 3 0 (Some (AppCallback 0)))
           ([x01; x00; x01; xff; xff; x05; x00; x00] ++
            [x98; x99] ++ repeat x30 14)
           (mkPacket 0x01 1 0xFFFF 5 0 ([x98; x99] ++ repeat x30 14))
           [x68; x69] AdvertiseCallback).
  - unfold packable. simpl. lia.
  - reflexivity.
  - reflexivity.
  - reflexivity.
  - reflexivity.
  - reflexivity.
Defined.

(** ** Cipher transform: beyond one block *)

Section CipherMore.
Context `{C : BlockCipher}.

Lemma succ_mod_16 (n : nat) :
  (n mod 16 <> 15)%nat -> (S n mod 16 = S (n mod 16))%nat.
Proof.
  intros Hn.
  pose proof (Nat.div_mod_eq n 16) as Hdiv.
  pose proof (Nat.mod_upper_bound n 16) as Hlt.
  symmetry. apply (Nat.mod_unique (S n) 16 (n / 16)); lia.
Qed.

(** X9. Zero padding is ambiguous: a plaintext and the same plaintext with
    one more zero byte at its end have the same ciphertext, unless the
    extra byte starts a new block (length mod 16 = 15).  The receiver cannot
    tell how many zero bytes the sender's text ended with. *)
Theorem trailing_zero_does_not_change_the_ciphertext (key plaintext : bytes) :
  (length plaintext mod 16 <> 15)%nat ->
  encrypt_payload key (plaintext ++ [x00]) = encrypt_payload key plaintext.
Proof.
  intros Hlen. unfold encrypt_payload.
  assert (Hpad : (plaintext ++ [x00]) ++
                 repeat x00 (16 - length (plaintext ++ [x00]) mod 16) =
                 plaintext ++ repeat x00 (16 - length plaintext mod 16)).
  { rewrite length_app. cbn [length]. rewrite Nat.add_1_r.
    rewrite succ_mod_16 by exact Hlen.
    pose proof (Nat.mod_upper_bound (length plaintext) 16) as Hlt.
    replace (16 - length plaintext mod 16)%nat
      with (S (16 - S (length plaintext mod 16))) by lia.
    cbn [repeat]. now rewrite <- app_assoc. }
  now rewrite Hpad.
Qed.

(** X12. ECB works block by block: the ciphertext of a 16-byte block
    followed by [rest] is the encryption of that block followed by the
    ciphertext of [rest]; equal plaintext blocks under one key give equal
    ciphertext blocks. *)
Theorem encryption_is_blockwise (key block rest : bytes) :
  key_ok key = true -> length block = 16%nat ->
  encrypt_payload key (block ++ rest) =
  (c <-? encrypt_payload key rest; Return (encrypt_block key block ++ c)).
Proof.
  intros Hk Hb. rewrite !encrypt_payload_blocks by exact Hk. cbn [obind].
  rewrite length_app, Hb.
  replace (16 + length rest)%nat with (length rest + 1 * 16)%nat by lia.
  rewrite Nat.div_add, Nat.Div0.mod_add by lia.
  replace (length rest / 16 + 1 + 1)%nat with (S (length rest / 16 + 1)) by lia.
  cbn [ecb_blocks]. rewrite <- app_assoc.
  replace (firstn 16 (block ++ rest ++ repeat x00 (16 - length rest mod 16)))
    with block
    by (rewrite firstn_app, Hb, Nat.sub_diag, firstn_O, app_nil_r;
        symmetry; apply firstn_all2; lia).
  replace (skipn 16 (block ++ rest ++ repeat x00 (16 - length rest mod 16)))
    with (rest ++ repeat x00 (16 - length rest mod 16))
    by (rewrite skipn_app, Hb, Nat.sub_diag, skipn_all2 by lia; reflexivity).
  reflexivity.
Qed.

Context {L : BlockCipherLaws C}.

(** X10. What a successful decryption tells: the key was accepted, the
    data was a whole number of 16-byte blocks, the result is not longer
    than the data and never ends in a zero byte. *)
Theorem decrypted_payload_facts (key data plaintext : bytes) :
  decrypt_payload key data = Return plaintext ->
  key_ok key = true /\ (length data mod 16 = 0)%nat /\
  (length plaintext <= length data)%nat /\
  (plaintext = [] \/ last plaintext x00 <> x00).
Proof.
  intros Hdec.
  pose proof (decrypt_payload_length key data plaintext Hdec) as Hle.
  destruct (decrypt_payload_cases key data)
    as [(Hk & Hlen & Heq)|(_ & Hbad)]; [|congruence].
  repeat split; try assumption.
  assert (plaintext =
          rstrip_zero (ecb_blocks (decrypt_block key) (length data / 16) data))
    as -> by congruence.
  apply rstrip_zero_last.
Qed.

(** X11. Round trip for every length: encrypting and decrypting a text
    followed by any number of zero bytes gives back the text without those
    zero bytes, provided the text itself is empty or does not end in a zero
    byte.  Trailing zero bytes of a plaintext are always lost, everything
    else is always kept. *)
Theorem roundtrip_loses_exactly_the_trailing_zeros (key text : bytes)
  (zeros : nat) :
  key_ok key = true ->
  text = [] \/ last text x00 <> x00 ->
  (c <-? encrypt_payload key (text ++ repeat x00 zeros);
   decrypt_payload key c) = Return text.
Proof.
  intros Hk Hend.
  rewrite decrypt_encrypt_payload by exact Hk.
  rewrite rstrip_zero_app_zeros. f_equal.
  destruct Hend as [->|Hlast]; [reflexivity|].
  apply rstrip_zero_fixed; [|exact Hlast].
  intros ->. now apply Hlast.
Qed.

End CipherMore.

Lemma trailing_zero_does_not_change_the_ciphertext_witness :
  @encrypt_payload shift_cipher example_key ([x68; x69] ++ [x00]) =
  @encrypt_payload shift_cipher example_key [x68; x69].
Proof.
  apply (@trailing_zero_does_not_change_the_ciphertext shift_cipher
           example_key [x68; x69]).
  simpl. lia.
Defined.

Lemma encryption_is_blockwise_witness :
  @encrypt_payload shift_cipher example_key (repeat x41 16 ++ repeat x41 16) =
  (c <-? @encrypt_payload shift_cipher example_key (repeat x41 16);
   Return (@encrypt_block shift_cipher example_key (repeat x41 16) ++ c)).
Proof.
  apply (@encryption_is_blockwise shift_cipher example_key
           (repeat x41 16) (repeat x41 16)).
  - reflexivity.
  - reflexivity.
Defined.

Lemma decrypted_payload_facts_witness :
  @key_ok shift_cipher example_key = true /\
  (length ([x98; x99] ++ repeat x30 14) mod 16 = 0)%nat /\
  (length [x68; x69] <= length ([x98; x99] ++ repeat x30 14))%nat /\
  ([x68; x69] = [] \/ last [x68; x69] x00 <> x00).
Proof.
  apply (@decrypted_payload_facts shift_cipher shift_cipher_laws example_key
           ([x98; x99] ++ repeat x30 14) [x68; x69]).
  reflexivity.
Defined.

Lemma roundtrip_loses_exactly_the_trailing_zeros_witness :
  (c <-? @encrypt_payload shift_cipher example_key
           ([x68; x00; x69] ++ repeat x00 20);
   @decrypt_payload shift_cipher example_key c) = Return [x68; x00; x69].
Proof.
  apply (@roundtrip_loses_exactly_the_trailing_zeros shift_cipher
           shift_cipher_laws example_key [x68; x00; x69] 20).
  - reflexivity.
  - right. simpl. discriminate.
Defined.

(** ** Origination: errors, the running flag, frame size *)

Section OriginationMore.
Context `{C : BlockCipher}.

(** X13. Sending before the presence thread has created the advertise
    callback (a node that was never started): the text is encrypted, the
    packet is built and the sequence counter advances, and then reading
    [self.advertise_callback] raises [AttributeError]; nothing is handed to
    the radio.  The failed send has consumed a sequence number. *)
Theorem send_before_start_consumes_a_sequence_number
  (self : BluetoothMeshComm) (destination_id : Z) (text : str)
  (payload : bytes) :
  packable self -> key_ok (network_key self) = true ->
  advertise_callback self = None -> 0 <= destination_id <= 65535 ->
  Z.of_nat (length text) <= MAX_PAYLOAD_SIZE ->
  utf8_encode text = Return payload ->
  send_message destination_id text self =
  (Raise AttributeError,
   set_sequence_number ((sequence_number self + 1) mod 0xFFFF) self,
   [CipherEncrypt payload]).
Proof.
  intros Hpack Hk Hcb Hd Hlen Hutf. unfold send_message.
  destruct (Z.gtb_spec (Z.of_nat (length text)) MAX_PAYLOAD_SIZE); [lia|].
  unfold _encrypt_payload, bind, lift, gets, emit.
  rewrite Hutf, encrypt_payload_blocks by exact Hk.
  rewrite create_mesh_packet_frame by (assumption || (unfold TTL_DEFAULT; lia)).
  rewrite advertise_packet_unset by exact Hcb.
  reflexivity.
Qed.

(** X14. [send_message] does not look at [self.running]: on a stopped node
    it does exactly what it does on a running one -- same result, same
    events, same change of the other attributes. *)
Theorem send_message_ignores_running (self : BluetoothMeshComm)
  (destination_id : Z) (text : str) (b : bool) :
  send_message destination_id text (set_running b self) =
  (result (send_message destination_id text self),
   set_running b (final (send_message destination_id text self)),
   trace (send_message destination_id text self)).
Proof.
  destruct self as [n k r m q sc ac].
  unfold send_message, _encrypt_payload, _create_mesh_packet,
    _advertise_packet, bind, lift, gets, getattr, modify, emit, ret,
    result, final, trace, set_running.
  destruct (Z.of_nat (length text) >? MAX_PAYLOAD_SIZE); [reflexivity|].
  destruct (utf8_encode text) as [payload|]; [|reflexivity].
  cbv beta iota zeta delta
    [node_id network_key running message_callback sequence_number
     scan_callback advertise_callback fst snd].
  destruct (encrypt_payload k payload) as [ct|]; [|reflexivity].
  destruct (setitem (bytearray (8 + length ct)) 0 1) as [p1|]; [|reflexivity].
  destruct (pack_into_HHBH p1 1 n destination_id TTL_DEFAULT q) as [p2|];
    [|reflexivity].
  destruct ac; reflexivity.
Qed.

Context {L : BlockCipherLaws C}.

(** X15. Size of an originated frame: 7 header bytes and the ciphertext,
    i.e. 7 + 16 * (len(payload) / 16 + 1) bytes.  It is never shorter than
    23 bytes, and it is 23 bytes exactly when the encoded text has at most
    15 bytes: a text of 16 to 23 characters, which the guard accepts, makes
    a longer frame (39 bytes or more). *)
Theorem originated_frame_size (self : BluetoothMeshComm)
  (destination_id : Z) (text : str) (payload : bytes) (cb : callback) :
  packable self -> key_ok (network_key self) = true ->
  advertise_callback self = Some cb -> 0 <= destination_id <= 65535 ->
  Z.of_nat (length text) <= MAX_PAYLOAD_SIZE ->
  utf8_encode text = Return payload ->
  exists frame,
    filter is_transmission (trace (send_message destination_id text self)) =
      [StartAdvertising (Some frame)] /\
    length frame = (7 + 16 * (length payload / 16 + 1))%nat /\
    (23 <= length frame)%nat /\
    (length frame = 23%nat <-> (length payload <= 15)%nat).
Proof.
  intros Hpack Hk Hcb Hd Hlen Hutf.
  destruct (encrypt_payload (network_key self) payload) as [ct|] eqn:Henc;
    [|rewrite encrypt_payload_blocks in Henc by exact Hk; discriminate].
  pose proof (encrypt_payload_length _ _ _ Hk Henc) as Hct.
  destruct (padded_length (length payload)) as (q & Hq & Hq0 & Hq').
  rewrite Hq in Hct.
  rewrite (send_message_accepted self destination_id text payload ct cb)
    by assumption.
  eexists. split; [reflexivity|].
  assert (Hframe : length (frame_prefix 1 (node_id self) destination_id
                             TTL_DEFAULT (sequence_number self) ++ ct) =
                   (7 + 16 * (length payload / 16 + 1))%nat).
  { rewrite length_app, Hct, Hq'. reflexivity. }
  rewrite Hframe.
  pose proof (Nat.div_mod_eq (length payload) 16) as Hdiv.
  pose proof (Nat.mod_upper_bound (length payload) 16) as Hmod.
  assert (Hsmall : (length payload <= 15 <-> length payload / 16 = 0)%nat).
  { split; intros H.
    - apply Nat.div_small. lia.
    - lia. }
  repeat split; try lia.
Qed.

End OriginationMore.

Lemma send_before_start_consumes_a_sequence_number_witness :
  @send_message shift_cipher 0xFFFF [0x68; 0x69] (__init__ 1 example_key) =
  (Raise AttributeError,
   set_sequence_number
     ((sequence_number (__init__ 1 example_key) + 1) mod 0xFFFF)
     (__init__ 1 example_key),
   [CipherEncrypt [x68; x69]]).
Proof.
  apply (@send_before_start_consumes_a_sequence_number shift_cipher
           (__init__ 1 example_key) 0xFFFF [0x68; 0x69] [x68; x69]).
  - unfold packable. simpl. lia.
  - reflexivity.
  - reflexivity.
  - lia.
  - simpl. unfold MAX_PAYLOAD_SIZE. lia.
  - reflexivity.
Defined.

Lemma originated_frame_size_witness :
  exists frame,
    filter is_transmission
      (trace (@send_message shift_cipher 0xFFFF (repeat 0x61 16)
                (started 1 0 None))) =
      [StartAdvertising (Some frame)] /\
    length frame = (7 + 16 * (length (repeat x61 16) / 16 + 1))%nat /\
    (23 <= length frame)%nat /\
    (length frame = 23%nat <-> (length (repeat x61 16) <= 15)%nat).
Proof.
  apply (@originated_frame_size shift_cipher shift_cipher_laws
           (started 1 0 None) 0xFFFF (repeat 0x61 16) (repeat x61 16)
           AdvertiseCallback).
  - unfold packable. simpl. lia.
  - reflexivity.
  - reflexivity.
  - lia.
  - simpl. unfold MAX_PAYLOAD_SIZE. lia.
  - reflexivity.
Defined.

(** ** Origination: the encoded text *)

Lemma utf8_encode_char_cases (c : Z) :
  (~ encodable c /\ utf8_encode_char c = Raise UnicodeEncodeError) \/
  (encodable c /\
   exists bc, utf8_encode_char c = Return bc /\
              (1 <= length bc <= 4)%nat).
Proof.
  unfold utf8_encode_char, encodable.
  destruct (Z.ltb_spec c 0); cbn [orb]; [left; split; [lia|reflexivity]|].
  destruct (Z.ltb_spec 0x10FFFF c); [left; split; [lia|reflexivity]|].
  destruct (Z.ltb_spec c 0x80);
    [right; split; [lia|eexists; split; [reflexivity|simpl; lia]]|].
  destruct (Z.ltb_spec c 0x800);
    [right; split; [lia|eexists; split; [reflexivity|simpl; lia]]|].
  destruct (Z.leb_spec 0xD800 c), (Z.leb_spec c 0xDFFF); cbn [andb];
    try (left; split; [lia|reflexivity]);
    destruct (Z.ltb_spec c 0x10000);
    (right; split; [lia|eexists; split; [reflexivity|simpl; lia]]).
Qed.

Lemma utf8_encode_unencodable (text : str) :
  Exists (fun c => ~ encodable c) text ->
  utf8_encode text = Raise UnicodeEncodeError.
Proof.
  induction 1 as [c rest Hc|c rest Hrest IH]; cbn [utf8_encode].
  - destruct (utf8_encode_char_cases c) as [(_ & ->)|(Hok & _)];
      [reflexivity|contradiction].
  - destruct (utf8_encode_char_cases c) as [(_ & ->)|(_ & bc & -> & _)];
      [reflexivity|].
    cbn [obind]. now rewrite IH.
Qed.


Section EncodedText.
Context `{C : BlockCipher}.

(** X16. A text with a code point that UTF-8 cannot encode (a surrogate)
    is not sent: when the guard lets it pass, [send_message] ends with
    [UnicodeEncodeError] before anything is encrypted, built or advertised,
    and the node is unchanged. *)
Theorem unencodable_text_is_not_sent (self : BluetoothMeshComm)
  (destination_id : Z) (text : str) :
  Z.of_nat (length text) <= MAX_PAYLOAD_SIZE ->
  Exists (fun c => ~ encodable c) text ->
  send_message destination_id text self = (Raise UnicodeEncodeError, self, []).
Proof.
  intros Hlen Hbad. unfold send_message.
  destruct (Z.gtb_spec (Z.of_nat (length text)) MAX_PAYLOAD_SIZE); [lia|].
  unfold bind, lift. now rewrite utf8_encode_unencodable.
Qed.


End EncodedText.

Lemma unencodable_text_is_not_sent_witness :
  @send_message shift_cipher 0xFFFF [0x68; 0xD800] (started 1 0 None) =
  (Raise UnicodeEncodeError, started 1 0 None, []).
Proof.
  apply (@unencodable_text_is_not_sent shift_cipher (started 1 0 None)
           0xFFFF [0x68; 0xD800]).
  - simpl. unfold MAX_PAYLOAD_SIZE. lia.
  - apply Exists_cons_tl. apply Exists_cons_hd. unfold encodable. lia.
Defined.


(** ** Life cycle: [start], the presence thread, [stop] *)

Lemma presence_loop_beacons (cycles : nat) (self : BluetoothMeshComm)
  (a : callback) :
  advertise_callback self = Some a ->
  presence_loop cycles self =
  (Return tt, self, if running self then presence_beacons cycles else []).
Proof.
  intros Ha. induction cycles as [|n IH].
  - cbn [presence_loop]. unfold ret, presence_beacons. cbn [repeat concat].
    now destruct (running self).
  - cbn [presence_loop]. unfold bind, gets, getattr, emit.
    destruct (running self) eqn:Hrun; [|reflexivity].
    rewrite Ha. cbn iota beta. rewrite Ha. cbn iota beta. rewrite IH.
    rewrite ?Hrun. reflexivity.
Qed.

(** X18. [stop] always clears [running], also when it raises: the node
    afterwards is the node with [running = False] and nothing else changed.
    It returns normally exactly when both callbacks exist, raises
    [AttributeError] otherwise, and never hands a frame to the radio. *)
Theorem stop_always_clears_running (self : BluetoothMeshComm) :
  final (stop self) = set_running false self /\
  (result (stop self) = Return tt <->
   scan_callback self <> None /\ advertise_callback self <> None) /\
  (result (stop self) = Return tt \/ result (stop self) = Raise AttributeError) /\
  existsb is_transmission (trace (stop self)) = false.
Proof.
  destruct self as [n k r m q [sc|] [ac|]]; cbn;
    (split; [reflexivity|]); (split; [|split; auto]);
    split; try discriminate; try (intros [? ?]; congruence);
    try (intros _; split; discriminate).
Qed.

(** X19. The presence thread: it creates the advertise callback, then
    advertises one beacon per cycle while the node is running and nothing
    at all when it is not; it never raises, never hands a packet to the
    radio and changes no other attribute. *)
Theorem presence_thread_only_beacons (self : BluetoothMeshComm) (cycles : nat) :
  _advertise_presence cycles self =
    (Return tt, set_advertise_callback AdvertiseCallback self,
     if running self then presence_beacons cycles else []) /\
  existsb is_transmission (trace (_advertise_presence cycles self)) = false /\
  length (trace (_advertise_presence cycles self)) =
    (if running self then 2 * cycles else 0)%nat.
Proof.
  assert (Hrun : _advertise_presence cycles self =
                 (Return tt, set_advertise_callback AdvertiseCallback self,
                  if running self then presence_beacons cycles else [])).
  { unfold _advertise_presence, bind, modify.
    rewrite (presence_loop_beacons cycles _ AdvertiseCallback) by reflexivity.
    reflexivity. }
  rewrite Hrun. clear Hrun. split; [reflexivity|]. unfold trace. cbn [snd].
  destruct (running self); [|split; reflexivity].
  unfold presence_beacons. split.
  - induction cycles as [|n IH]; [reflexivity|exact IH].
  - induction cycles as [|n IH]; [reflexivity|].
    cbn [repeat concat app length]. rewrite IH. lia.
Qed.

Lemma presence_thread_only_beacons_aux (self : BluetoothMeshComm)
  (cycles : nat) :
  final (_advertise_presence cycles (final (start true self))) =
    set_advertise_callback AdvertiseCallback
      (set_scan_callback ScanCallback (set_running true self)) /\
  trace (presence_loop cycles
           (set_running false
              (set_advertise_callback AdvertiseCallback
                 (set_scan_callback ScanCallback (set_running true self))))) =
    [].
Proof.
  split.
  - unfold _advertise_presence, bind, modify.
    rewrite (presence_loop_beacons cycles _ AdvertiseCallback) by reflexivity.
    reflexivity.
  - rewrite (presence_loop_beacons cycles _ AdvertiseCallback) by reflexivity.
    reflexivity.
Qed.

(** X20. Start, run, stop, stop again -- from any state of the node: after
    [start] with the adapter enabled and the first statements of the
    presence thread, [stop] returns normally and leaves [running = False];
    a second [stop] returns normally too and changes nothing; and the
    presence thread, looking at the flag again, advertises nothing more. *)
Theorem start_stop_stop (self : BluetoothMeshComm) (cycles : nat) :
  running (final (start true self)) = true /\
  result (stop (final (_advertise_presence cycles (final (start true self))))) =
    Return tt /\
  running
    (final (stop (final (_advertise_presence cycles
                           (final (start true self)))))) = false /\
  stop (final (stop (final (_advertise_presence cycles
                              (final (start true self)))))) =
    (Return tt,
     final (stop (final (_advertise_presence cycles (final (start true self))))),
     [StopScan; StopAdvertising]) /\
  trace (presence_loop cycles
           (final (stop (final (_advertise_presence cycles
                                  (final (start true self))))))) = [].
Proof.
  destruct (presence_thread_only_beacons_aux self cycles) as [Hadv Hstop].
  rewrite Hadv. repeat split; try reflexivity; exact Hstop.
Qed.

(** ** Packets: failed builds, the counter, the wire format *)



(** X22. What survives the trip from [_create_mesh_packet] to the header
    parsing: for a payload of at least one byte, the frame has
    7 + len(payload) bytes and parses to the opcode, the node id as source,
    the destination and the ttl that were packed; the sequence field holds
    the high byte of the counter and the first payload byte, and the
    payload arrives without its first byte. *)
Theorem header_fields_survive (self : BluetoothMeshComm)
  (destination_id opcode : Z) (p0 : byte) (payload : bytes) (ttl : Z) :
  packable self ->
  0 <= opcode <= 255 -> 0 <= destination_id <= 65535 -> 0 <= ttl <= 255 ->
  exists frame,
    result (_create_mesh_packet destination_id opcode (p0 :: payload) ttl
              self) = Return frame /\
    length frame = (7 + length (p0 :: payload))%nat /\
    parse_mesh_packet frame =
      Return (Some (mkPacket opcode (node_id self) destination_id ttl
                      (Z.lor (Z.shiftl (Z.shiftr (sequence_number self) 8) 8)
                             (int_of_byte p0))
                      payload)).
Proof.
  intros Hpack Ho Hd Ht. pose proof Hpack as [Hn Hs].
  rewrite create_mesh_packet_frame by assumption.
  eexists. split; [reflexivity|]. split.
  - rewrite length_app. reflexivity.
  - now apply parse_created_frame.
Qed.

Lemma header_fields_survive_witness :
  exists frame,
    result (_create_mesh_packet 0xFFFF 0x01 (x41 :: [x42]) 7
              (started 1 0x0102 None)) = Return frame /\
    length frame = (7 + length (x41 :: [x42]))%nat /\
    parse_mesh_packet frame =
      Return (Some (mkPacket 0x01 (node_id (started 1 0x0102 None)) 0xFFFF 7
                      (Z.lor (Z.shiftl
                                (Z.shiftr
                                   (sequence_number (started 1 0x0102 None)) 8)
                                8)
                             (int_of_byte x41))
                      [x42])).
Proof.
  apply (header_fields_survive (started 1 0x0102 None) 0xFFFF 0x01 x41 [x42] 7).
  - unfold packable. simpl. lia.
  - lia.
  - lia.
  - lia.
Defined.

(** X23. The sequence counter has period 65535: on a node whose id fits
    and whose counter is below 65535, [n] packets built in a row all
    succeed, the counter stays below 65535 -- the value 65535 is never
    reached -- and it is back at its starting value exactly when [n] is a
    multiple of 65535. *)
Theorem sequence_counter_period (self : BluetoothMeshComm)
  (destination_id opcode : Z) (payload : bytes) (ttl : Z) (n : nat) :
  0 <= node_id self <= 65535 -> 0 <= sequence_number self < 65535 ->
  0 <= opcode <= 255 -> 0 <= destination_id <= 65535 -> 0 <= ttl <= 255 ->
  result (build_packets n destination_id opcode payload ttl self) = Return tt /\
  0 <= sequence_number
         (final (build_packets n destination_id opcode payload ttl self))
    < 65535 /\
  (sequence_number
     (final (build_packets n destination_id opcode payload ttl self)) =
   sequence_number self <-> Z.of_nat n mod 65535 = 0).
Proof.
  intros Hn Hs Ho Hd Ht.
  destruct (build_packets_counter n self destination_id opcode payload ttl
              Hn Hs Ho Hd Ht) as [Hr Hc].
  rewrite Hc. split; [exact Hr|].
  pose proof (Z.mod_pos_bound (sequence_number self + Z.of_nat n) 65535)
    as Hb1.
  pose proof (Z.mod_pos_bound (Z.of_nat n) 65535) as Hb2.
  pose proof (Z.div_mod (sequence_number self + Z.of_nat n) 65535) as Hd1.
  pose proof (Z.div_mod (Z.of_nat n) 65535) as Hd2.
  split; [lia|]. split; intros Heq; lia.
Qed.

Lemma sequence_counter_period_witness :
  result (build_packets 3 0xFFFF 0x01 [x41] 7 (started 1 65533 None)) =
    Return tt /\
  0 <= sequence_number
         (final (build_packets 3 0xFFFF 0x01 [x41] 7 (started 1 65533 None)))
    < 65535 /\
  (sequence_number
     (final (build_packets 3 0xFFFF 0x01 [x41] 7 (started 1 65533 None))) =
   sequence_number (started 1 65533 None) <-> Z.of_nat 3 mod 65535 = 0).
Proof.
  apply (sequence_counter_period (started 1 65533 None) 0xFFFF 0x01 [x41] 7 3).
  - simpl. lia.
  - simpl. lia.
  - lia.
  - lia.
  - lia.
Defined.





(** ** An invariant of the node *)

Section Invariant.
Context `{C : BlockCipher}.

Lemma send_message_final (self : BluetoothMeshComm) (destination_id : Z)
  (text : str) :
  final (send_message destination_id text self) = self \/
  final (send_message destination_id text self) =
    set_sequence_number ((sequence_number self + 1) mod 0xFFFF) self.
Proof.
  destruct self as [n k r m q sc ac].
  unfold send_message, _encrypt_payload, _create_mesh_packet,
    _advertise_packet, bind, lift, gets, getattr, modify, emit, ret, final.
  destruct (Z.of_nat (length text) >? MAX_PAYLOAD_SIZE); [now left|].
  destruct (utf8_encode text) as [payload|]; [|now left].
  cbv beta iota zeta delta
    [node_id network_key running message_callback sequence_number
     scan_callback advertise_callback fst snd].
  destruct (encrypt_payload k payload) as [ct|]; [|now left].
  destruct (setitem (bytearray (8 + length ct)) 0 1) as [p1|]; [|now left].
  destruct (pack_into_HHBH p1 1 n destination_id TTL_DEFAULT q) as [p2|];
    [|now left].
  destruct ac; now right.
Qed.

Lemma perform_preserves_invariant (n : Z) (k : bytes) (a : action)
  (self : BluetoothMeshComm) :
  node_invariant n k self -> node_invariant n k (final (perform a self)).
Proof.
  intros (Hn & Hk & Hs & Hr).
  pose proof (Z.mod_pos_bound (sequence_number self + 1) 65535) as Hmod.
  unfold node_invariant.
  destruct a as [isEnabled| |d text|scan_record|cycles|h]; cbn [perform].
  - destruct isEnabled; destruct self as [n' k' r m q sc ac]; cbn in *;
      repeat split; auto; lia.
  - destruct self as [n' k' r m q [sc|] [ac|]]; cbn in *;
      repeat split; auto; try lia; discriminate.
  - destruct (send_message_final self d text) as [->| ->];
      cbn [sequence_number set_sequence_number node_id network_key running
           scan_callback];
      repeat split; auto; lia.
  - destruct (receive_outcome_complete self scan_record);
      unfold final; cbn [fst snd];
      cbn [sequence_number set_sequence_number node_id network_key running
           scan_callback];
      repeat split; auto; lia.
  - unfold _advertise_presence, bind, modify.
    rewrite (presence_loop_beacons cycles _ AdvertiseCallback) by reflexivity.
    unfold final. cbn [fst snd].
    destruct self as [n' k' r m q sc ac]; cbn in *; repeat split; auto; lia.
  - destruct self as [n' k' r m q sc ac]; cbn in *; repeat split; auto; lia.
Qed.

(** X25. An invariant of the node.  Whatever sequence of calls -- [start],
    [stop], [send_message], received scan records, presence cycles,
    assignments to [message_callback] -- is made on a node created by
    [__init__] with a 16-bit id, whether the calls return or raise: the id
    and the key never change, the sequence counter stays in 0..65534, the
    node stays packable (so [struct.pack_into] never fails on the node's
    own attributes), and whenever [running] is set the scan callback
    exists. *)
Theorem node_invariant_holds (n : Z) (k : bytes) (actions : list action) :
  0 <= n <= 65535 ->
  node_invariant n k (run actions (__init__ n k)) /\
  packable (run actions (__init__ n k)).
Proof.
  intros Hn.
  assert (Hinit : node_invariant n k (__init__ n k)).
  { unfold node_invariant. cbn. repeat split; try lia; discriminate. }
  assert (Hrun : forall self,
             node_invariant n k self -> node_invariant n k (run actions self)).
  { induction actions as [|a rest IH]; intros self Hinv; [exact Hinv|].
    cbn [run]. apply IH. now apply perform_preserves_invariant. }
  specialize (Hrun _ Hinit). split; [exact Hrun|].
  destruct Hrun as (Hid & _ & Hs & _). unfold packable. rewrite Hid. lia.
Qed.

End Invariant.

Lemma node_invariant_holds_witness :
  node_invariant 1 example_key
    (@run shift_cipher
       [DoSend 0xFFFF [0x68; 0x69]; DoStart true; DoPresence 1;
        DoSetCallback (Some (AppCallback 0)); DoSend 0xFFFF [0x68; 0x69];
        DoReceive ([x01; x00; x02; xff; xff; x05; x00; x00] ++
                   [x98; x99] ++ repeat x30 14);
        DoReceive [x01; x00; x02; xff; xff; x05; x00; x00; x41];
        DoStop; DoStop]
       (__init__ 1 example_key)) /\
  packable
    (@run shift_cipher
       [DoSend 0xFFFF [0x68; 0x69]; DoStart true; DoPresence 1;
        DoSetCallback (Some (AppCallback 0)); DoSend 0xFFFF [0x68; 0x69];
        DoReceive ([x01; x00; x02; xff; xff; x05; x00; x00] ++
                   [x98; x99] ++ repeat x30 14);
        DoReceive [x01; x00; x02; xff; xff; x05; x00; x00; x41];
        DoStop; DoStop]
       (__init__ 1 example_key)).
Proof.
  apply (@node_invariant_holds shift_cipher 1 example_key).
  lia.
Defined.

(** ** The Send button of the application *)

Lemma lstrip_whitespace (text : str) :
  Forall (fun c => MeshCommApp.is_whitespace c = true) text ->
  MeshCommApp.lstrip text = [].
Proof.
  induction 1 as [|c rest Hc _ IH]; [reflexivity|].
  cbn [MeshCommApp.lstrip]. now rewrite Hc.
Qed.

Section SendButton.
Context `{C : BlockCipher}.

(** X26. An input of white space only (the empty input included) sends
    nothing: the handler returns without calling the node, the node and
    the input field are unchanged, nothing is printed or advertised. *)
Theorem blank_input_sends_nothing (self : MeshCommApp.app) :
  Forall (fun c => MeshCommApp.is_whitespace c = true)
         (MeshCommApp.text_input_text self) ->
  MeshCommApp.send_message self = (Return tt, self, []).
Proof.
  intros Hblank. unfold MeshCommApp.send_message, MeshCommApp.strip.
  now rewrite (lstrip_whitespace _ Hblank).
Qed.

(** X27. A message that is too long is lost: when the stripped input has
    more than 23 characters, the node prints "Message too long" and sends
    nothing, and the handler then empties the input field all the same.
    The node is unchanged. *)
Theorem too_long_input_is_discarded (self : MeshCommApp.app) :
  MAX_PAYLOAD_SIZE <
    Z.of_nat (length (MeshCommApp.strip (MeshCommApp.text_input_text self))) ->
  MeshCommApp.send_message self =
  (Return tt,
   MeshCommApp.mkApp (MeshCommApp.mesh self) [],
   [Print "Message too long"]).
Proof.
  intros Hlong. unfold MeshCommApp.send_message.
  destruct (MeshCommApp.strip (MeshCommApp.text_input_text self))
    as [|c rest] eqn:Hstrip.
  - cbn [length] in Hlong. unfold MAX_PAYLOAD_SIZE in Hlong. lia.
  - now rewrite send_message_rejected by exact Hlong.
Qed.

End SendButton.

Lemma blank_input_sends_nothing_witness :
  @MeshCommApp.send_message shift_cipher
    (MeshCommApp.mkApp (MeshCommApp.mesh MeshCommApp.__init__)
                       [0x20; 0x09; 0xA0; 0x3000]) =
  (Return tt,
   MeshCommApp.mkApp (MeshCommApp.mesh MeshCommApp.__init__)
                     [0x20; 0x09; 0xA0; 0x3000], []).
Proof.
  apply (@blank_input_sends_nothing shift_cipher
           (MeshCommApp.mkApp (MeshCommApp.mesh MeshCommApp.__init__)
                              [0x20; 0x09; 0xA0; 0x3000])).
  repeat constructor.
Defined.

Lemma too_long_input_is_discarded_witness :
  @MeshCommApp.send_message shift_cipher
    (MeshCommApp.mkApp (MeshCommApp.mesh MeshCommApp.__init__)
                       (0x20 :: repeat 0x61 24 ++ [0x20])) =
  (Return tt,
   MeshCommApp.mkApp (MeshCommApp.mesh MeshCommApp.__init__) [],
   [Print "Message too long"]).
Proof.
  apply (@too_long_input_is_discarded shift_cipher
           (MeshCommApp.mkApp (MeshCommApp.mesh MeshCommApp.__init__)
                              (0x20 :: repeat 0x61 24 ++ [0x20]))).
  vm_compute. reflexivity.
Defined.
